(** * Configuration model and store of thinkube-ai-integration

    A shallow embedding of the TypeScript sources

      - [src/models/Command.ts], [Skill.ts], [Agent.ts]   (artifact codecs, naming)
      - [src/models/Hook.ts], [ClaudeConfig.ts]           (settings document)
      - [src/services/ClaudeConfigService.ts]             (the store)
      - [src/models/McpServer.ts], [src/extension.ts]     (server maps, setup
                                                           commands, launcher)

    together with the properties the specification states about them, and
    further properties of the same code.

    Conventions of the embedding.

    - A JavaScript string is a [string]: a sequence of UTF-16 code units, each
      below 256 (the Latin-1 range); [toLowerCase], [trim] and the regular
      expression classes [\s] and [.] are written out for exactly that range.
    - [undefined] is [None]; a thrown [Error] is [Throw]; the state threaded
      by the service (file system and fired events) is passed explicitly.
    - A timeout is an integer; the text of a settings file is kept as the
      document [JSON.parse] reads from it. *)

From stdpp Require Import gmap strings list fin_maps.
From Stdlib Require Import NArith Ascii.

(** ** JavaScript string primitives *)

Module Js.

Definition code (c : ascii) : N := N_of_ascii c.

Definition LF : ascii := "010"%char.
Definition CR : ascii := "013"%char.
Definition nl : string := String LF "".

Definition in_range (lo hi : N) (c : ascii) : bool :=
  ((lo <=? code c) && (code c <=? hi))%N.

Fixpoint all (p : ascii -> bool) (s : string) : bool :=
  match s with
  | "" => true
  | String c s' => p c && all p s'
  end.

Fixpoint map (f : ascii -> ascii) (s : string) : string :=
  match s with
  | "" => ""
  | String c s' => String (f c) (map f s')
  end.

(** [String.prototype.toLowerCase], one code unit at a time: in the range
    modelled, [A-Z] and the accented capitals U+00C0..U+00DE (without the
    multiplication sign U+00D7) move up by 32, everything else stays. *)
Definition lower_char (c : ascii) : ascii :=
  if in_range 65 90 c || (in_range 192 222 c && negb (code c =? 215)%N)
  then ascii_of_N (code c + 32)
  else c.

Definition toLowerCase (s : string) : string := map lower_char s.

(** [s.startsWith(p)] and the remainder of [s] after [p]. *)
Fixpoint strip_prefix (p s : string) : option string :=
  match p, s with
  | "", _ => Some s
  | String a p', String b s' => if Ascii.eqb a b then strip_prefix p' s' else None
  | String _ _, "" => None
  end.

Definition startsWith (s p : string) : bool :=
  match strip_prefix p s with Some _ => true | None => false end.

(** [s.slice(1)] *)
Definition slice1 (s : string) : string :=
  match s with
  | "" => ""
  | String _ s' => s'
  end.

(** The truthiness of a string: only [''] is falsy. *)
Definition truthy (s : string) : bool :=
  match s with "" => false | _ => true end.

(** [a || b] on a possibly undefined string [a]. *)
Definition or_else (a : option string) (b : string) : string :=
  match a with
  | Some s => if truthy s then s else b
  | None => b
  end.

(** White space as [trim] and the class [\s] see it: TAB, LF, VT, FF, CR,
    SPACE and NBSP. *)
Definition is_ws (c : ascii) : bool :=
  in_range 9 13 c || (code c =? 32)%N || (code c =? 160)%N.

(** The code units the class [.] refuses. *)
Definition is_line_terminator (c : ascii) : bool :=
  Ascii.eqb c LF || Ascii.eqb c CR.

Fixpoint trimStart (s : string) : string :=
  match s with
  | "" => ""
  | String c s' => if is_ws c then trimStart s' else s
  end.

Fixpoint trimEnd (s : string) : string :=
  match s with
  | "" => ""
  | String c s' =>
      match trimEnd s' with
      | "" => if is_ws c then "" else String c ""
      | t => String c t
      end
  end.

Definition trim (s : string) : string := trimEnd (trimStart s).

(** [s.split(sep)] for a separator of one code unit; never empty. *)
Fixpoint split (sep : ascii) (s : string) : list string :=
  match s with
  | "" => [""]
  | String c s' =>
      match split sep s' with
      | [] => [""]
      | w :: ws => if Ascii.eqb c sep then "" :: w :: ws else String c w :: ws
      end
  end.

(** [parts.join(sep)] *)
Fixpoint join (sep : string) (parts : list string) : string :=
  match parts with
  | [] => ""
  | [p] => p
  | p :: ps => p +:+ sep +:+ join sep ps
  end.

(** [s.replace(pat, '')] for a non-empty string pattern: the first
    occurrence goes, the rest stays. *)
Fixpoint remove_first (pat s : string) : string :=
  match strip_prefix pat s with
  | Some rest => rest
  | None =>
      match s with
      | "" => ""
      | String c s' => String c (remove_first pat s')
      end
  end.

(** The first occurrence of [pat] in [s]: what precedes and what follows. *)
Fixpoint cut_at (pat s : string) : option (string * string) :=
  match strip_prefix pat s with
  | Some rest => Some ("", rest)
  | None =>
      match s with
      | "" => None
      | String c s' =>
          match cut_at pat s' with
          | Some (a, b) => Some (String c a, b)
          | None => None
          end
      end
  end.

(** The longest prefix of code units satisfying [p], and the rest. *)
Fixpoint span (p : ascii -> bool) (s : string) : string * string :=
  match s with
  | "" => ("", "")
  | String c s' =>
      if p c then let '(a, b) := span p s' in (String c a, b) else ("", s)
  end.

(** [s.endsWith(suffix)] *)
Fixpoint endsWith (s suffix : string) : bool :=
  String.eqb s suffix
  || match s with
     | "" => false
     | String _ s' => endsWith s' suffix
     end.

(** [path.join(a, b)] for operands that are already normalized: an empty
    operand is skipped, the others are joined with one separator. *)
Definition path_join (a b : string) : string :=
  match a, b with
  | "", _ => b
  | _, "" => a
  | _, _ => a +:+ "/" +:+ b
  end.

(** [path.dirname(p)]: what precedes the last separator. *)
Definition dirname (p : string) : string :=
  match rev (split "/"%char p) with
  | _ :: d :: ds =>
      match join "/" (rev (d :: ds)) with
      | "" => "/"
      | parent => parent
      end
  | _ => "."
  end.

Definition starts_with_ws (s : string) : bool :=
  match s with
  | "" => false
  | String c _ => is_ws c
  end.

Fixpoint ends_with_ws (s : string) : bool :=
  match s with
  | "" => false
  | String c "" => is_ws c
  | String _ s' => ends_with_ws s'
  end.

(** Does [pat] occur in [s]? *)
Fixpoint occurs (pat s : string) : bool :=
  match strip_prefix pat s with
  | Some _ => true
  | None =>
      match s with
      | "" => false
      | String _ s' => occurs pat s'
      end
  end.

(** Any code unit but [x]. *)
Definition not_char (x : ascii) : ascii -> bool := fun c => negb (Ascii.eqb c x).

End Js.

(** ** Identity and normalization *)

Module Naming.
Import Js.

Definition is_hyphen (c : ascii) : bool := Ascii.eqb c "-"%char.

(** the class [[a-z0-9-]] *)
Definition kebab_char (c : ascii) : bool :=
  in_range 97 122 c || in_range 48 57 c || is_hyphen c.

(** [.replace(/[^a-z0-9-]/g, '-')] *)
Definition replace_non_kebab (s : string) : string :=
  map (fun c => if kebab_char c then c else "-"%char) s.

(** [.replace(/-+/g, '-')]: the scan emits one hyphen where a run starts
    and skips the rest of that run; [in_run] tells whether the previous
    code unit belonged to the run being replaced. *)
Fixpoint replace_hyphen_runs_from (in_run : bool) (s : string) : string :=
  match s with
  | "" => ""
  | String c s' =>
      if is_hyphen c
      then if in_run
           then replace_hyphen_runs_from true s'
           else String "-" (replace_hyphen_runs_from true s')
      else String c (replace_hyphen_runs_from false s')
  end.

Definition replace_hyphen_runs (s : string) : string :=
  replace_hyphen_runs_from false s.

(** Command.ts, [normalizeCommandName] *)
Definition normalizeCommandName (name : string) : string :=
  let name := if startsWith name "/" then slice1 name else name in
  replace_hyphen_runs (replace_non_kebab (toLowerCase name)).

(** Skill.ts, [normalizeSkillName] *)
Definition normalizeSkillName (name : string) : string :=
  replace_hyphen_runs (replace_non_kebab (toLowerCase name)).

(** Agent.ts, [normalizeAgentName] *)
Definition normalizeAgentName (name : string) : string :=
  replace_hyphen_runs (replace_non_kebab (toLowerCase name)).

(** The rule in the words of the specification, as one pass over the
    name: fold the case of a code unit, turn it into a hyphen when it is
    outside [[a-z0-9-]], and keep only the first hyphen of a run. *)
Definition spec_char (c : ascii) : ascii :=
  let c' := lower_char c in if kebab_char c' then c' else "-"%char.

Fixpoint spec_normalize_from (after_hyphen : bool) (s : string) : string :=
  match s with
  | "" => ""
  | String c s' =>
      let d := spec_char c in
      if is_hyphen d
      then if after_hyphen
           then spec_normalize_from true s'
           else String d (spec_normalize_from true s')
      else String d (spec_normalize_from false s')
  end.

Definition spec_normalize (s : string) : string := spec_normalize_from false s.

End Naming.

(** ** Artifact codecs *)

Module Codec.
Import Js.

(** [content.match(frontmatterRegex)], the regular expression being
    [^---\n] then a lazy group of any code units, then [\n---\n] and a
    greedy group of any code units up to the end.  The text opens with the
    delimiter line; the lazy group stops at the first closing delimiter,
    the greedy one takes everything after it.  The result is the pair of
    groups (front matter, body). *)
Definition frontmatterMatch (content : string) : option (string * string) :=
  match strip_prefix ("---" +:+ nl) content with
  | Some rest => cut_at (nl +:+ "---" +:+ nl) rest
  | None => None
  end.

(** [line.match(lineRegex)], the regular expression being a group
    [[^:]+], a colon, [\s*] and a group [.*] up to the end.  Group 1 is
    the non-empty run of code units before the first colon, which is the
    code unit [span] stops at.  [\s*] is greedy and [.] refuses line
    terminators, which are white space themselves, so the match exists
    exactly when what follows the leading white space after the colon
    holds no line terminator, and that remainder is group 2. *)
Definition lineMatch (line : string) : option (string * string) :=
  match span (fun c => negb (Ascii.eqb c ":"%char)) line with
  | (String k ks, String _ rest) =>
      let v := trimStart rest in
      if all (fun c => negb (is_line_terminator c)) v
      then Some (String k ks, v)
      else None
  | _ => None
  end.

(** The loop over [frontmatter.split('\n')] filling [metadata]. *)
Definition parseMetadata (frontmatter : string) : gmap string string :=
  foldl (fun (metadata : gmap string string) line =>
           match lineMatch line with
           | Some (k, v) => <[trim k := trim v]> metadata
           | None => metadata
           end)
        ∅ (split LF frontmatter).

(** [filePath.split('/').pop()?.replace('.md', '') || ''] *)
Definition fileStem (filePath : string) : string :=
  remove_first ".md" (List.last (split "/"%char filePath) "").

(** [filePath.split('/').slice(-2, -1)[0]] *)
Definition containingDir (filePath : string) : option string :=
  match rev (split "/"%char filePath) with
  | _ :: d :: _ => Some d
  | _ => None
  end.

(** [metadata['tools'] ? metadata['tools'].split(',').map(t => t.trim()) : []] *)
Definition parseTools (tools : option string) : list string :=
  match tools with
  | Some t => if truthy t then List.map trim (split ","%char t) else []
  | None => []
  end.

(** *** Well-formed records *)

(** A text that neither begins nor ends with white space. *)
Definition trimmed (s : string) : bool :=
  negb (starts_with_ws s) && negb (ends_with_ws s).

(** A header value the line grammar gives back as it is: one line, no
    white space at either end. *)
Definition clean (s : string) : bool :=
  trimmed s && all (fun c => negb (is_line_terminator c)) s.

(** A tool name that survives the comma-separated list. *)
Definition tool_ok (t : string) : bool :=
  truthy t && clean t && all (not_char ",") t.

(** The values of [SkillModel] and [AgentModel]. *)
Definition model_ok (m : string) : bool :=
  String.eqb m "inherit" || String.eqb m "haiku"
  || String.eqb m "sonnet" || String.eqb m "opus".

(** A header line, and the text of a document with the given header. *)
Definition headerLine (field : string * string) : string :=
  field.1 +:+ ": " +:+ field.2.

Definition document (fields : list (string * string)) (content : string) : string :=
  join nl ("---" :: List.map headerLine fields ++ ["---"; ""]) +:+ content.

(** The line that closes the header, with the line break before it. *)
Definition closing : string := nl +:+ "---" +:+ nl.

(** A header line that cannot be taken for a delimiter, and the text of
    some lines, each closed by a line break, before [rest]. *)
Definition safe_line (line : string) : bool :=
  all (not_char LF) line && truthy line && negb (startsWith line "-").

Fixpoint lines_then (lines : list string) (rest : string) : string :=
  match lines with
  | [] => rest
  | l :: ls => l +:+ nl +:+ lines_then ls rest
  end.

(** A key of the header as the encoders write it. *)
Definition key_ok (k : string) : bool :=
  truthy k && trimmed k
  && all (fun c => not_char ":" c && not_char LF c) k
  && negb (startsWith k "-").

Definition fields_ok (fields : list (string * string)) : bool :=
  forallb (fun field => key_ok field.1 && clean field.2) fields.

Definition as_map (fields : list (string * string)) : gmap string string :=
  foldl (fun (metadata : gmap string string) field => <[field.1 := field.2]> metadata)
        ∅ fields.

End Codec.

Module Command.
Import Js Codec.

(** [Omit<Command, 'filePath'>] *)
Record Draft := mkDraft {
  name : string;
  description : string;
  argumentHint : option string;
  content : string
}.

Record Command := mkCommand {
  draft :> Draft;
  filePath : string
}.

Definition commandToMarkdown (command : Draft) : string :=
  let frontmatter :=
    join nl (["---"; "description: " +:+ description command]
             ++ (match argumentHint command with
                 | Some h => if truthy h then ["argument-hint: " +:+ h] else []
                 | None => []
                 end)
             ++ ["---"; ""]) in
  frontmatter +:+ content command.

Definition parseCommandMarkdown (content filePath : string) : option Command :=
  match frontmatterMatch content with
  | None => None
  | Some (frontmatter, body) =>
      let metadata := parseMetadata frontmatter in
      let name := fileStem filePath in
      Some {| draft := {| name := name;
                          description := or_else (metadata !! "description") "";
                          argumentHint := metadata !! "argument-hint";
                          content := trim body |};
              filePath := filePath |}
  end.

(** The header fields [commandToMarkdown] writes. *)
Definition fields (command : Draft) : list (string * string) :=
  ("description", description command)
  :: match argumentHint command with
     | Some h => if truthy h then [("argument-hint", h)] else []
     | None => []
     end.

(** A command record the codec gives back as it is: the name is the one
    its file yields, description and argument hint are clean header
    values, the hint is not empty, the content is trimmed. *)
Definition valid (c : Command) : bool :=
  String.eqb (fileStem (filePath c)) (name c)
  && clean (description c)
  && match argumentHint c with
     | Some h => truthy h && clean h
     | None => true
     end
  && trimmed (content c).

End Command.

Module Skill.
Import Js Codec.

Record Draft := mkDraft {
  name : string;
  description : string;
  tools : list string;
  model : string;
  content : string
}.

Record Skill := mkSkill {
  draft :> Draft;
  filePath : string
}.

Definition skillToMarkdown (skill : Draft) : string :=
  let frontmatter :=
    join nl (["---"; "name: " +:+ name skill; "description: " +:+ description skill]
             ++ (match tools skill with
                 | [] => []
                 | _ => ["tools: " +:+ join ", " (tools skill)]
                 end)
             ++ (if String.eqb (model skill) "inherit" then []
                 else ["model: " +:+ model skill])
             ++ ["---"; ""]) in
  frontmatter +:+ content skill.

Definition parseSkillMarkdown (content filePath : string) : option Skill :=
  match frontmatterMatch content with
  | None => None
  | Some (frontmatter, body) =>
      let metadata := parseMetadata frontmatter in
      let name := or_else (metadata !! "name")
                          (or_else (containingDir filePath) "") in
      Some {| draft := {| name := name;
                          description := or_else (metadata !! "description") "";
                          tools := parseTools (metadata !! "tools");
                          model := or_else (metadata !! "model") "inherit";
                          content := trim body |};
              filePath := filePath |}
  end.

(** The header fields [skillToMarkdown] writes. *)
Definition fields (skill : Draft) : list (string * string) :=
  [("name", name skill); ("description", description skill)]
  ++ (match tools skill with
      | [] => []
      | _ => [("tools", join ", " (tools skill))]
      end)
  ++ (if String.eqb (model skill) "inherit" then [] else [("model", model skill)]).

(** A skill record the codec gives back as it is. *)
Definition valid (s : Skill) : bool :=
  truthy (name s) && clean (name s)
  && clean (description s)
  && forallb tool_ok (tools s)
  && model_ok (model s)
  && trimmed (content s).

End Skill.

Module Agent.
Import Js Codec.

Record Draft := mkDraft {
  name : string;
  description : string;
  tools : list string;
  model : string;
  content : string
}.

Record Agent := mkAgent {
  draft :> Draft;
  filePath : string
}.

Definition agentToMarkdown (agent : Draft) : string :=
  let frontmatter :=
    join nl (["---"; "name: " +:+ name agent; "description: " +:+ description agent]
             ++ (match tools agent with
                 | [] => []
                 | _ => ["tools: " +:+ join ", " (tools agent)]
                 end)
             ++ (if String.eqb (model agent) "inherit" then []
                 else ["model: " +:+ model agent])
             ++ ["---"; ""]) in
  frontmatter +:+ content agent.

Definition parseAgentMarkdown (content filePath : string) : option Agent :=
  match frontmatterMatch content with
  | None => None
  | Some (frontmatter, body) =>
      let metadata := parseMetadata frontmatter in
      let name := or_else (metadata !! "name") (fileStem filePath) in
      Some {| draft := {| name := name;
                          description := or_else (metadata !! "description") "";
                          tools := parseTools (metadata !! "tools");
                          model := or_else (metadata !! "model") "inherit";
                          content := trim body |};
              filePath := filePath |}
  end.

(** The header fields [agentToMarkdown] writes. *)
Definition fields (agent : Draft) : list (string * string) :=
  [("name", name agent); ("description", description agent)]
  ++ (match tools agent with
      | [] => []
      | _ => [("tools", join ", " (tools agent))]
      end)
  ++ (if String.eqb (model agent) "inherit" then [] else [("model", model agent)]).

(** An agent record the codec gives back as it is. *)
Definition valid (a : Agent) : bool :=
  truthy (name a) && clean (name a)
  && clean (description a)
  && forallb tool_ok (tools a)
  && model_ok (model a)
  && trimmed (content a).

End Agent.

(** ** Artifacts by kind *)

Module Artifact.

Inductive Kind := command | skill | agent.

Inductive Artifact :=
| ACommand (c : Command.Command)
| ASkill (s : Skill.Skill)
| AAgent (a : Agent.Agent).

Definition kind (a : Artifact) : Kind :=
  match a with
  | ACommand _ => command
  | ASkill _ => skill
  | AAgent _ => agent
  end.

Definition name (a : Artifact) : string :=
  match a with
  | ACommand c => Command.name (Command.draft c)
  | ASkill s => Skill.name (Skill.draft s)
  | AAgent a => Agent.name (Agent.draft a)
  end.

Definition content (a : Artifact) : string :=
  match a with
  | ACommand c => Command.content (Command.draft c)
  | ASkill s => Skill.content (Skill.draft s)
  | AAgent a => Agent.content (Agent.draft a)
  end.

Definition filePath (a : Artifact) : string :=
  match a with
  | ACommand c => Command.filePath c
  | ASkill s => Skill.filePath s
  | AAgent a => Agent.filePath a
  end.

(** The encoder and the decoder of each kind. *)
Definition encode (a : Artifact) : string :=
  match a with
  | ACommand c => Command.commandToMarkdown (Command.draft c)
  | ASkill s => Skill.skillToMarkdown (Skill.draft s)
  | AAgent a => Agent.agentToMarkdown (Agent.draft a)
  end.

Definition decode (k : Kind) (text sourcePath : string) : option Artifact :=
  match k with
  | command => ACommand <$> Command.parseCommandMarkdown text sourcePath
  | skill => ASkill <$> Skill.parseSkillMarkdown text sourcePath
  | agent => AAgent <$> Agent.parseAgentMarkdown text sourcePath
  end.

Definition valid (a : Artifact) : bool :=
  match a with
  | ACommand c => Command.valid c
  | ASkill s => Skill.valid s
  | AAgent a => Agent.valid a
  end.

End Artifact.

(** ** The settings document *)

Module Hook.

Inductive HookEvent := PreToolUse | PostToolUse.

#[export] Instance HookEvent_eq_dec : EqDecision HookEvent.
Proof. solve_decision. Defined.

(** The event as it appears in a template literal. *)
Definition event_name (e : HookEvent) : string :=
  match e with
  | PreToolUse => "PreToolUse"
  | PostToolUse => "PostToolUse"
  end.

(** [HookDefinition]; the field [type] is the constant ['command']. *)
Record HookDefinition := mkHookDefinition {
  def_command : string;
  def_timeout : option Z
}.

Record HookMatcher := mkHookMatcher {
  matcher : string;
  hooks : list HookDefinition
}.

(** [Hook]; the optional [filePath] is never set by the sources. *)
Record Hook := mkHook {
  id : string;
  event : HookEvent;
  hook_matcher : string;
  command : string;
  timeout : option Z
}.

(** [...(timeout && { timeout })]: an absent or zero timeout leaves no key. *)
Definition truthy_timeout (t : option Z) : option Z :=
  match t with
  | Some 0%Z => None
  | _ => t
  end.

(** [createHook]; [stamp] stands for the text
    [Date.now() + '-' + Math.random().toString(36).substr(2, 9)] the
    environment supplies. *)
Definition createHook (stamp : string) (event : HookEvent)
    (matcher command : string) (timeout : option Z) : Hook :=
  {| id := event_name event +:+ "-" +:+ stamp;
     event := event; hook_matcher := matcher;
     command := command; timeout := timeout |}.


End Hook.

Module McpServer.

Record McpServerConfig := mkMcpServerConfig {
  command : string;
  args : list string;
  env : option (gmap string string);
  autoStart : option bool;
  timeout : option Z
}.

(** [McpServer] without the optional [status], [tools] and
    [errorMessage], which the store never sets. *)
Record McpServer := mkMcpServer {
  id : string;
  name : string;
  config : McpServerConfig
}.

End McpServer.

Module ClaudeConfig.
Import Hook.

Record Permissions := mkPermissions {
  allow : list string;
  deny : list string;
  ask : list string
}.

(** [Partial<Permissions>] *)
Record PartialPermissions := mkPartialPermissions {
  allow_opt : option (list string);
  deny_opt : option (list string);
  ask_opt : option (list string)
}.

(** The object under [settings.hooks], one optional list per event. *)
Record HooksSection := mkHooksSection {
  preToolUse : option (list HookMatcher);
  postToolUse : option (list HookMatcher)
}.

Record ClaudeSettings := mkClaudeSettings {
  hooks : option HooksSection;
  permissions : option Permissions;
  mcpServers : option (gmap string McpServer.McpServerConfig)
}.

(** The contents of a file as [readFileSync(path, 'utf8')] returns them:
    a text, or the text [JSON.stringify(doc, null, 2)] of a settings
    document, which is kept as the document [JSON.parse] reads back from
    it.  [Text] is used for texts that are not such a document. *)
Inductive FileData :=
| Text (s : string)
| JsonDoc (doc : ClaudeSettings).

Record ClaudeConfig := mkClaudeConfig {
  settings : ClaudeSettings;
  settingsPath : string;
  claudeMdPath : option string;
  claudeMdContent : option FileData;
  commandsDir : string;
  skillsDir : string;
  agentsDir : string
}.

(** [hooks[event]] and [hooks[event] = groups] *)
Definition hooksFor (event : HookEvent) (h : HooksSection) : option (list HookMatcher) :=
  match event with
  | PreToolUse => preToolUse h
  | PostToolUse => postToolUse h
  end.

Definition setHooksFor (event : HookEvent) (groups : list HookMatcher)
    (h : HooksSection) : HooksSection :=
  match event with
  | PreToolUse => {| preToolUse := Some groups; postToolUse := postToolUse h |}
  | PostToolUse => {| preToolUse := preToolUse h; postToolUse := Some groups |}
  end.

Definition createDefaultSettings : ClaudeSettings :=
  {| hooks := Some {| preToolUse := Some []; postToolUse := Some [] |};
     permissions := Some {| allow := []; deny := []; ask := [] |};
     mcpServers := Some ∅ |}.

Definition createDefaultConfig (basePath : string) : ClaudeConfig :=
  let claudeDir := basePath +:+ "/.claude" in
  {| settings := createDefaultSettings;
     settingsPath := claudeDir +:+ "/settings.json";
     claudeMdPath := Some (basePath +:+ "/CLAUDE.md");
     claudeMdContent := None;
     commandsDir := claudeDir +:+ "/commands";
     skillsDir := claudeDir +:+ "/skills";
     agentsDir := claudeDir +:+ "/agents" |}.

(** [[...new Set(items)]]: a [Set] keeps the first insertion of every
    value, in insertion order. *)
Definition set_add (seen : list string) (x : string) : list string :=
  if bool_decide (x ∈ seen) then seen else seen ++ [x].

Definition set_spread (items : list string) : list string :=
  foldl set_add [] items.

Definition mergePermissions (base : Permissions) (override : PartialPermissions)
    : Permissions :=
  {| allow := set_spread (allow base ++ default [] (allow_opt override));
     deny := set_spread (deny base ++ default [] (deny_opt override));
     ask := set_spread (ask base ++ default [] (ask_opt override)) |}.

(** The merge in the words of the specification: the entries of the
    global list, each once, followed by the entries only the project
    list has, each once. *)
Fixpoint fresh_entries (seen items : list string) : list string :=
  match items with
  | [] => []
  | x :: rest =>
      if bool_decide (x ∈ seen) then fresh_entries seen rest
      else x :: fresh_entries (x :: seen) rest
  end.

Definition spec_union (global project : list string) : list string :=
  fresh_entries [] global ++ fresh_entries global project.

End ClaudeConfig.

(** ** The persistence boundary *)

Module Fs.
Import Js ClaudeConfig.

Inductive node :=
| Dir
| File (data : FileData).

(** A file system: normalized absolute paths to nodes.  Paths are
    compared as they are written ([.] and [..] segments are not
    resolved), and the boundary accepts every write, directory creation
    and removal; the calls that fail are reading what is not a file and
    listing what is not a directory. *)
Abbreviation t := (gmap string node).

Definition existsSync (fs : t) (p : string) : bool :=
  bool_decide (is_Some (fs !! p)).

(** [readFileSync(p, 'utf8')]; [None] when the call throws. *)
Definition readFileSync (fs : t) (p : string) : option FileData :=
  match fs !! p with
  | Some (File data) => Some data
  | _ => None
  end.

Definition writeFileSync (fs : t) (p : string) (data : FileData) : t :=
  <[p := File data]> fs.

Definition unlinkSync (fs : t) (p : string) : t := delete p fs.

(** The directories above [p], nearest last. *)
Fixpoint ancestors_from (seen p : string) : list string :=
  match p with
  | "" => []
  | String c p' =>
      let rest := ancestors_from (seen +:+ String c "") p' in
      if Ascii.eqb c "/"%char && truthy seen then seen :: rest else rest
  end.

Definition ancestors (p : string) : list string := ancestors_from "" p.

(** [mkdirSync(p, { recursive: true })] *)
Definition mkdirSync (fs : t) (p : string) : t :=
  foldl (fun (acc : t) d => match acc !! d with
                            | None => <[d := Dir]> acc
                            | Some _ => acc
                            end)
        fs (ancestors p ++ [p]).

(** The name of [k] inside [dir], when [k] is an entry of [dir]. *)
Definition entry_name (dir k : string) : option string :=
  match strip_prefix (dir +:+ "/") k with
  | Some n => if truthy n && all (fun c => negb (Ascii.eqb c "/"%char)) n
              then Some n else None
  | None => None
  end.

(** [readdirSync(dir, { withFileTypes: true })]: the entries of [dir]
    with their nodes; [None] when [dir] is not a directory. *)
Definition readdirSync (fs : t) (dir : string) : option (list (string * node)) :=
  match fs !! dir with
  | Some Dir =>
      Some (omap (fun '(k, n) => (fun name => (name, n)) <$> entry_name dir k)
                 (map_to_list fs))
  | _ => None
  end.

(** [rmSync(dir, { recursive: true })] *)
Definition rmSync (fs : t) (dir : string) : t :=
  filter (fun '(k, _) => k ≠ dir ∧ strip_prefix (dir +:+ "/") k = None) fs.

End Fs.

(** ** The configuration store: [ClaudeConfigService] *)

Module Service.
Import Js ClaudeConfig Fs.

Inductive ConfigScope := Project | Global.

(** The errors the service throws itself. *)
Inductive Error :=
| NoWorkspace                     (* 'No workspace folder open' *)
| CommandNotFound (name : string) (* 'Command <name> not found' *)
| IOError.                        (* an exception of [fs] that is not caught *)

(** What the service works on: the file system and the payloads fired
    on [onConfigChanged] so far, oldest first. *)
Record Store := mkStore {
  fs : Fs.t;
  fired : list ClaudeConfig
}.

Inductive Outcome (A : Type) :=
| Ok (a : A)
| Throw (e : Error).
Arguments Ok {A} a.
Arguments Throw {A} e.

Definition M (A : Type) : Type := Store -> Outcome A * Store.

Definition ret {A} (a : A) : M A := fun s => (Ok a, s).
Definition throw {A} (e : Error) : M A := fun s => (Throw e, s).
Definition bind {A B} (m : M A) (k : A -> M B) : M B :=
  fun s => match m s with
           | (Ok a, s') => k a s'
           | (Throw e, s') => (Throw e, s')
           end.

Notation "'let*' x ':=' m 'in' k" := (bind m (fun x => k))
  (at level 10, x pattern, m at level 100, k at level 200).

Definition read_fs : M Fs.t := fun s => (Ok (fs s), s).
Definition update_fs (f : Fs.t -> Fs.t) : M unit :=
  fun s => (Ok tt, {| fs := f (fs s); fired := fired s |}).
(** [this._onConfigChanged.fire(config)] *)
Definition fire (config : ClaudeConfig) : M unit :=
  fun s => (Ok tt, {| fs := fs s; fired := fired s ++ [config] |}).

(** The service object: the constructor argument and [process.env.HOME]. *)
Record Service := mkService {
  basePath : string;
  HOME : option string
}.

Definition getWorkspacePath (this : Service) : option string :=
  Some (basePath this).

(** [projectPath || this.getWorkspacePath()] *)
Definition resolveBase (this : Service) (projectPath : option string) : string :=
  or_else projectPath (or_else (getWorkspacePath this) "").

(** [loadConfig]: both reads sit in a [try]; a failed read or parse
    leaves the default in place. *)
Definition load (fs : Fs.t) (basePath : string) : ClaudeConfig :=
  let config := createDefaultConfig basePath in
  let settings' :=
    if existsSync fs (settingsPath config)
    then match readFileSync fs (settingsPath config) with
         | Some (JsonDoc doc) => doc
         | _ => settings config
         end
    else settings config in
  let md :=
    match claudeMdPath config with
    | Some p => if existsSync fs p then readFileSync fs p else None
    | None => None
    end in
  {| settings := settings'; settingsPath := settingsPath config;
     claudeMdPath := claudeMdPath config; claudeMdContent := md;
     commandsDir := commandsDir config; skillsDir := skillsDir config;
     agentsDir := agentsDir config |}.

Definition loadConfig (basePath : string) : M ClaudeConfig :=
  let* fs := read_fs in ret (load fs basePath).

Definition getConfig (this : Service) (scope : ConfigScope)
    (projectPath : option string) : M ClaudeConfig :=
  let basePath :=
    match scope with
    | Global => path_join (or_else (HOME this) "") ".claude"
    | Project => resolveBase this projectPath
    end in
  if truthy basePath then loadConfig basePath else throw NoWorkspace.

Definition saveSettings (this : Service) (settings : ClaudeSettings)
    (projectPath : option string) : M unit :=
  let basePath := resolveBase this projectPath in
  if truthy basePath then
    let claudeDir := path_join basePath ".claude" in
    let settingsPath := path_join claudeDir "settings.json" in
    let* fs := read_fs in
    let* _ := (if existsSync fs claudeDir then ret tt
               else update_fs (fun fs => mkdirSync fs claudeDir)) in
    let* _ := update_fs (fun fs => writeFileSync fs settingsPath (JsonDoc settings)) in
    let* config := loadConfig basePath in
    fire config
  else throw NoWorkspace.

(** *** Hooks *)

Definition hookId (event : Hook.HookEvent) (matcher command : string) : string :=
  Hook.event_name event +:+ "-" +:+ matcher +:+ "-" +:+ command.

(** The local function [processHooks] of [getHooks]. *)
Definition processHooks (event : Hook.HookEvent)
    (matchers : option (list Hook.HookMatcher)) : list Hook.Hook :=
  match matchers with
  | None => []
  | Some matchers =>
      mbind (M := list) (fun matcher =>
        List.map (fun hookDef =>
               {| Hook.id := hookId event (Hook.matcher matcher) (Hook.def_command hookDef);
                  Hook.event := event;
                  Hook.hook_matcher := Hook.matcher matcher;
                  Hook.command := Hook.def_command hookDef;
                  Hook.timeout := Hook.def_timeout hookDef |})
            (Hook.hooks matcher))
        matchers
  end.

Definition hooksOf (event : Hook.HookEvent) (settings : ClaudeSettings)
    : option (list Hook.HookMatcher) :=
  match hooks settings with
  | Some h => hooksFor event h
  | None => None
  end.

Definition getHooks (this : Service) (eventFilter : option Hook.HookEvent)
    (projectPath : option string) : M (list Hook.Hook) :=
  let* config := getConfig this Project projectPath in
  let pre := match eventFilter with
             | None | Some Hook.PreToolUse =>
                 processHooks Hook.PreToolUse (hooksOf Hook.PreToolUse (settings config))
             | _ => []
             end in
  let post := match eventFilter with
              | None | Some Hook.PostToolUse =>
                  processHooks Hook.PostToolUse (hooksOf Hook.PostToolUse (settings config))
              | _ => []
              end in
  ret (pre ++ post).

(** The argument [hookDef] of [addHook]. *)
Record HookInput := mkHookInput {
  in_matcher : string;
  in_command : string;
  in_timeout : option Z
}.

(** [find] the first group with this matcher and [push] the action onto
    it; [None] when [find] returns [undefined]. *)
Fixpoint pushExisting (matcher : string) (d : Hook.HookDefinition)
    (groups : list Hook.HookMatcher) : option (list Hook.HookMatcher) :=
  match groups with
  | [] => None
  | g :: gs =>
      if bool_decide (Hook.matcher g = matcher)
      then Some ({| Hook.matcher := Hook.matcher g;
                    Hook.hooks := Hook.hooks g ++ [d] |} :: gs)
      else (fun gs' => g :: gs') <$> pushExisting matcher d gs
  end.

(** The settings [addHook] hands to [saveSettings]. *)
Definition withHook (event : Hook.HookEvent) (hookDef : HookInput)
    (settings : ClaudeSettings) : ClaudeSettings :=
  let section := default {| preToolUse := Some []; postToolUse := Some [] |}
                         (hooks settings) in
  let groups := default [] (hooksFor event section) in
  let action := {| Hook.def_command := in_command hookDef;
                   Hook.def_timeout := Hook.truthy_timeout (in_timeout hookDef) |} in
  let groups' :=
    match pushExisting (in_matcher hookDef) action groups with
    | Some updated => updated
    | None => groups ++ [ {| Hook.matcher := in_matcher hookDef;
                             Hook.hooks := [action] |} ]
    end in
  {| hooks := Some (setHooksFor event groups' section);
     permissions := permissions settings;
     mcpServers := mcpServers settings |}.

Definition addHook (this : Service) (stamp : string) (event : Hook.HookEvent)
    (hookDef : HookInput) (projectPath : option string) : M Hook.Hook :=
  let* config := getConfig this Project projectPath in
  let newHook := Hook.createHook stamp event (in_matcher hookDef)
                   (in_command hookDef) (in_timeout hookDef) in
  let* _ := saveSettings this (withHook event hookDef (settings config)) projectPath in
  ret newHook.

(** The two passes of [deleteHook] over the groups of the event. *)
Definition withoutHook (hookToDelete : Hook.Hook)
    (matchers : list Hook.HookMatcher) : list Hook.HookMatcher :=
  let filtered :=
    List.map (fun matcher =>
           if bool_decide (Hook.matcher matcher = Hook.hook_matcher hookToDelete)
           then {| Hook.matcher := Hook.matcher matcher;
                   Hook.hooks := filter (fun h => Hook.def_command h
                                                  ≠ Hook.command hookToDelete)
                                        (Hook.hooks matcher) |}
           else matcher)
        matchers in
  filter (fun m => 0 < length (Hook.hooks m)) filtered.

Definition deleteHook (this : Service) (event : Hook.HookEvent) (hookId : string)
    (projectPath : option string) : M unit :=
  let* config := getConfig this Project projectPath in
  let* hooks := getHooks this (Some event) projectPath in
  match List.find (fun h => bool_decide (Hook.id h = hookId)) hooks,
        ClaudeConfig.hooks (settings config) with
  | Some hookToDelete, Some section =>
      match hooksFor event section with
      | None => ret tt
      | Some matchers =>
          saveSettings this
            {| hooks := Some (setHooksFor event (withoutHook hookToDelete matchers) section);
               permissions := permissions (settings config);
               mcpServers := mcpServers (settings config) |}
            projectPath
      end
  | _, _ => ret tt
  end.

(** *** Permissions *)

Inductive PermissionType := Allow | Deny | Ask.

Definition emptyPermissions : Permissions := {| allow := []; deny := []; ask := [] |}.

(** [permissions[type]] and [permissions[type] = rules] *)
Definition rulesOf (type : PermissionType) (p : Permissions) : list string :=
  match type with Allow => allow p | Deny => deny p | Ask => ask p end.

Definition setRulesOf (type : PermissionType) (rules : list string)
    (p : Permissions) : Permissions :=
  match type with
  | Allow => {| allow := rules; deny := deny p; ask := ask p |}
  | Deny => {| allow := allow p; deny := rules; ask := ask p |}
  | Ask => {| allow := allow p; deny := deny p; ask := rules |}
  end.

Definition withPermissions (p : option Permissions) (settings : ClaudeSettings)
    : ClaudeSettings :=
  {| hooks := hooks settings; permissions := p; mcpServers := mcpServers settings |}.

Definition getPermissions (this : Service) (projectPath : option string)
    : M Permissions :=
  let* config := getConfig this Project projectPath in
  ret (default emptyPermissions (permissions (settings config))).

Definition setPermissions (this : Service) (permissions : Permissions)
    (projectPath : option string) : M unit :=
  let* config := getConfig this Project projectPath in
  saveSettings this (withPermissions (Some permissions) (settings config)) projectPath.

Definition addPermission (this : Service) (type : PermissionType) (rule : string)
    (projectPath : option string) : M unit :=
  let* config := getConfig this Project projectPath in
  let current := default emptyPermissions (permissions (settings config)) in
  let rules := rulesOf type current in
  let rules' := if bool_decide (rule ∈ rules) then rules else rules ++ [rule] in
  saveSettings this
    (withPermissions (Some (setRulesOf type rules' current)) (settings config))
    projectPath.

Definition removePermission (this : Service) (type : PermissionType) (rule : string)
    (projectPath : option string) : M unit :=
  let* config := getConfig this Project projectPath in
  let permissions' :=
    match permissions (settings config) with
    | Some p => Some (setRulesOf type (filter (fun r => r ≠ rule) (rulesOf type p)) p)
    | None => None
    end in
  saveSettings this (withPermissions permissions' (settings config)) projectPath.

(** *** Commands *)

(** What a parser makes of the contents of a file; the text of a settings
    document opens with a brace, never with the delimiter line. *)
Definition parseData {A} (parse : string -> string -> option A)
    (data : FileData) (filePath : string) : option A :=
  match data with
  | Text content => parse content filePath
  | JsonDoc _ => None
  end.

(** The body of the loop over the entries of a flat directory: entries
    that are not [.md] files, cannot be read or do not decode are
    skipped. *)
Definition loadFlat {A} (parse : string -> string -> option A)
    (fs : Fs.t) (dir : string) (files : list (string * node)) : list A :=
  omap (fun '(file, _) =>
          if endsWith file ".md"
          then let filePath := path_join dir file in
               match readFileSync fs filePath with
               | Some data => parseData parse data filePath
               | None => None
               end
          else None)
       files.

Definition listFlat {A} (parse : string -> string -> option A)
    (dir : string) : M (list A) :=
  let* fs := read_fs in
  if existsSync fs dir
  then match readdirSync fs dir with
       | Some files => ret (loadFlat parse fs dir files)
       | None => throw IOError
       end
  else ret [].

Definition getCommands (this : Service) (projectPath : option string)
    : M (list Command.Command) :=
  let* config := getConfig this Project projectPath in
  listFlat Command.parseCommandMarkdown (commandsDir config).

Definition ensureDir (dir : string) : M unit :=
  let* fs := read_fs in
  if existsSync fs dir then ret tt else update_fs (fun fs => mkdirSync fs dir).

Definition createCommand (this : Service) (name description content : string)
    (argumentHint : option string) (projectPath : option string)
    : M Command.Command :=
  let* config := getConfig this Project projectPath in
  let* _ := ensureDir (commandsDir config) in
  let command := {| Command.name := name; Command.description := description;
                    Command.content := content;
                    Command.argumentHint := argumentHint |} in
  let filePath := path_join (commandsDir config) (name +:+ ".md") in
  let fileContent := Command.commandToMarkdown command in
  let* _ := update_fs (fun fs => writeFileSync fs filePath (Text fileContent)) in
  let* _ := fire config in
  ret {| Command.draft := command; Command.filePath := filePath |}.

(** [Partial<Command>]: the keys an update carries. *)
Record CommandUpdates := mkCommandUpdates {
  up_name : option string;
  up_description : option string;
  up_argumentHint : option (option string);
  up_content : option string;
  up_filePath : option string
}.

(** [{ ...existing, ...updates }] *)
Definition applyUpdates (existing : Command.Command) (updates : CommandUpdates)
    : Command.Command :=
  {| Command.draft :=
       (let old := Command.draft existing in
        {| Command.name := default (Command.name old) (up_name updates);
           Command.description :=
             default (Command.description old) (up_description updates);
           Command.argumentHint :=
             default (Command.argumentHint old) (up_argumentHint updates);
           Command.content := default (Command.content old) (up_content updates) |});
     Command.filePath := default (Command.filePath existing) (up_filePath updates) |}.

Definition updateCommand (this : Service) (name : string) (updates : CommandUpdates)
    (projectPath : option string) : M unit :=
  let* commands := getCommands this projectPath in
  match List.find (fun c => bool_decide (Command.name (Command.draft c) = name)) commands with
  | None => throw (CommandNotFound name)
  | Some existing =>
      let updated := applyUpdates existing updates in
      let content := Command.commandToMarkdown (Command.draft updated) in
      let* _ := update_fs (fun fs =>
                  writeFileSync fs (Command.filePath existing) (Text content)) in
      let* config := getConfig this Project projectPath in
      fire config
  end.

Definition deleteCommand (this : Service) (name : string)
    (projectPath : option string) : M unit :=
  let* commands := getCommands this projectPath in
  let* fs := read_fs in
  match List.find (fun c => bool_decide (Command.name (Command.draft c) = name)) commands with
  | Some command =>
      if existsSync fs (Command.filePath command)
      then let* _ := update_fs (fun fs => unlinkSync fs (Command.filePath command)) in
           let* config := getConfig this Project projectPath in
           fire config
      else ret tt
  | None => ret tt
  end.

(** *** Skills *)

Definition loadSkills (fs : Fs.t) (skillsDir : string)
    (dirs : list (string * node)) : list Skill.Skill :=
  omap (fun '(dirName, n) =>
          match n with
          | Dir =>
              let skillPath := path_join (path_join skillsDir dirName) "SKILL.md" in
              if existsSync fs skillPath
              then match readFileSync fs skillPath with
                   | Some data => parseData Skill.parseSkillMarkdown data skillPath
                   | None => None
                   end
              else None
          | File _ => None
          end)
       dirs.

Definition getSkills (this : Service) (projectPath : option string)
    : M (list Skill.Skill) :=
  let* config := getConfig this Project projectPath in
  let* fs := read_fs in
  if existsSync fs (skillsDir config)
  then match readdirSync fs (skillsDir config) with
       | Some dirs => ret (loadSkills fs (skillsDir config) dirs)
       | None => throw IOError
       end
  else ret [].

Definition createSkill (this : Service) (name description content : string)
    (tools : list string) (model : string) (projectPath : option string)
    : M Skill.Skill :=
  let* config := getConfig this Project projectPath in
  let skillDir := path_join (skillsDir config) name in
  let* _ := ensureDir skillDir in
  let skill := {| Skill.name := name; Skill.description := description;
                  Skill.content := content; Skill.tools := tools;
                  Skill.model := model |} in
  let filePath := path_join skillDir "SKILL.md" in
  let fileContent := Skill.skillToMarkdown skill in
  let* _ := update_fs (fun fs => writeFileSync fs filePath (Text fileContent)) in
  let* _ := fire config in
  ret {| Skill.draft := skill; Skill.filePath := filePath |}.

Definition deleteSkill (this : Service) (name : string)
    (projectPath : option string) : M unit :=
  let* skills := getSkills this projectPath in
  let* fs := read_fs in
  match List.find (fun s => bool_decide (Skill.name (Skill.draft s) = name)) skills with
  | Some skill =>
      let skillDir := dirname (Skill.filePath skill) in
      if existsSync fs skillDir
      then let* _ := update_fs (fun fs => rmSync fs skillDir) in
           let* config := getConfig this Project projectPath in
           fire config
      else ret tt
  | None => ret tt
  end.

(** *** Agents *)

Definition getAgents (this : Service) (projectPath : option string)
    : M (list Agent.Agent) :=
  let* config := getConfig this Project projectPath in
  listFlat Agent.parseAgentMarkdown (agentsDir config).

Definition createAgent (this : Service) (name description content : string)
    (tools : list string) (model : string) (projectPath : option string)
    : M Agent.Agent :=
  let* config := getConfig this Project projectPath in
  let* _ := ensureDir (agentsDir config) in
  let agent := {| Agent.name := name; Agent.description := description;
                  Agent.content := content; Agent.tools := tools;
                  Agent.model := model |} in
  let filePath := path_join (agentsDir config) (name +:+ ".md") in
  let fileContent := Agent.agentToMarkdown agent in
  let* _ := update_fs (fun fs => writeFileSync fs filePath (Text fileContent)) in
  let* _ := fire config in
  ret {| Agent.draft := agent; Agent.filePath := filePath |}.

Definition deleteAgent (this : Service) (name : string)
    (projectPath : option string) : M unit :=
  let* agents := getAgents this projectPath in
  let* fs := read_fs in
  match List.find (fun a => bool_decide (Agent.name (Agent.draft a) = name)) agents with
  | Some agent =>
      if existsSync fs (Agent.filePath agent)
      then let* _ := update_fs (fun fs => unlinkSync fs (Agent.filePath agent)) in
           let* config := getConfig this Project projectPath in
           fire config
      else ret tt
  | None => ret tt
  end.

(** *** MCP servers *)

Definition withMcpServers (m : option (gmap string McpServer.McpServerConfig))
    (settings : ClaudeSettings) : ClaudeSettings :=
  {| hooks := hooks settings; permissions := permissions settings; mcpServers := m |}.

Definition getMcpServers (this : Service) (projectPath : option string)
    : M (list McpServer.McpServer) :=
  let* config := getConfig this Project projectPath in
  match mcpServers (settings config) with
  | None => ret []
  | Some servers =>
      ret (List.map (fun '(id, serverConfig) =>
                  {| McpServer.id := id; McpServer.name := id;
                     McpServer.config := serverConfig |})
               (map_to_list servers))
  end.

Definition addMcpServer (this : Service) (id : string)
    (serverConfig : McpServer.McpServerConfig) (projectPath : option string)
    : M unit :=
  let* config := getConfig this Project projectPath in
  let servers := default ∅ (mcpServers (settings config)) in
  saveSettings this
    (withMcpServers (Some (<[id := serverConfig]> servers)) (settings config))
    projectPath.

Definition removeMcpServer (this : Service) (id : string)
    (projectPath : option string) : M unit :=
  let* config := getConfig this Project projectPath in
  match mcpServers (settings config) with
  | Some servers =>
      match servers !! id with
      | Some _ =>
          saveSettings this
            (withMcpServers (Some (delete id servers)) (settings config))
            projectPath
      | None => ret tt
      end
  | None => ret tt
  end.

(** *** CLAUDE.md and initialization *)

Definition getClaudeMd (this : Service) (projectPath : option string)
    : M (option FileData) :=
  let* config := getConfig this Project projectPath in
  ret (claudeMdContent config).

Definition saveClaudeMd (this : Service) (content : string)
    (projectPath : option string) : M unit :=
  let basePath := resolveBase this projectPath in
  if truthy basePath then
    let claudeMdPath := path_join basePath "CLAUDE.md" in
    let* _ := update_fs (fun fs => writeFileSync fs claudeMdPath (Text content)) in
    let* config := loadConfig basePath in
    fire config
  else throw NoWorkspace.

Definition hasClaudeConfig (this : Service) (projectPath : option string) : M bool :=
  let basePath := resolveBase this projectPath in
  if truthy basePath then
    let* fs := read_fs in ret (existsSync fs (path_join basePath ".claude"))
  else ret false.

Definition initializeClaudeConfig (this : Service) (projectPath : option string)
    : M unit :=
  let basePath := resolveBase this projectPath in
  if truthy basePath then
    let config := createDefaultConfig basePath in
    let dirs := [dirname (settingsPath config); commandsDir config;
                 skillsDir config; agentsDir config] in
    let* _ := update_fs (fun fs =>
                foldl (fun fs dir => if existsSync fs dir then fs else mkdirSync fs dir)
                      fs dirs) in
    let* fs := read_fs in
    let* _ := (if existsSync fs (settingsPath config) then ret tt
               else update_fs (fun fs =>
                      writeFileSync fs (settingsPath config)
                                    (JsonDoc createDefaultSettings))) in
    fire config
  else throw NoWorkspace.

(** *** Sequences of calls *)









(** *** The mutating calls of the service *)

Inductive Mutation :=
| DoSaveSettings (settings : ClaudeSettings)
| DoAddHook (stamp : string) (event : Hook.HookEvent) (hookDef : HookInput)
| DoDeleteHook (event : Hook.HookEvent) (hookId : string)
| DoSetPermissions (permissions : Permissions)
| DoAddPermission (type : PermissionType) (rule : string)
| DoRemovePermission (type : PermissionType) (rule : string)
| DoCreateCommand (name description content : string) (argumentHint : option string)
| DoUpdateCommand (name : string) (updates : CommandUpdates)
| DoDeleteCommand (name : string)
| DoCreateSkill (name description content : string) (tools : list string) (model : string)
| DoDeleteSkill (name : string)
| DoCreateAgent (name description content : string) (tools : list string) (model : string)
| DoDeleteAgent (name : string)
| DoAddMcpServer (id : string) (serverConfig : McpServer.McpServerConfig)
| DoRemoveMcpServer (id : string)
| DoSaveClaudeMd (content : string)
| DoInitialize.

Definition discard {A} (m : M A) : M unit := let* _ := m in ret tt.

Definition perform (this : Service) (mutation : Mutation)
    (projectPath : option string) : M unit :=
  match mutation with
  | DoSaveSettings settings => saveSettings this settings projectPath
  | DoAddHook stamp event hookDef => discard (addHook this stamp event hookDef projectPath)
  | DoDeleteHook event hookId => deleteHook this event hookId projectPath
  | DoSetPermissions permissions => setPermissions this permissions projectPath
  | DoAddPermission type rule => addPermission this type rule projectPath
  | DoRemovePermission type rule => removePermission this type rule projectPath
  | DoCreateCommand name description content argumentHint =>
      discard (createCommand this name description content argumentHint projectPath)
  | DoUpdateCommand name updates => updateCommand this name updates projectPath
  | DoDeleteCommand name => deleteCommand this name projectPath
  | DoCreateSkill name description content tools model =>
      discard (createSkill this name description content tools model projectPath)
  | DoDeleteSkill name => deleteSkill this name projectPath
  | DoCreateAgent name description content tools model =>
      discard (createAgent this name description content tools model projectPath)
  | DoDeleteAgent name => deleteAgent this name projectPath
  | DoAddMcpServer id serverConfig => addMcpServer this id serverConfig projectPath
  | DoRemoveMcpServer id => removeMcpServer this id projectPath
  | DoSaveClaudeMd content => saveClaudeMd this content projectPath
  | DoInitialize => initializeClaudeConfig this projectPath
  end.




End Service.

(** ** Sample data *)

Module Samples.
Import Js.

Definition helper_text : string :=
  "---" +:+ nl +:+ "name: helper" +:+ nl +:+ "---" +:+ nl
  +:+ nl +:+ "  Do the work.  " +:+ nl.

Definition helper_path : string := "/p/.claude/agents/helper.md".

Definition helper_agent : Agent.Agent :=
  {| Agent.draft := {| Agent.name := "helper"; Agent.description := "";
                       Agent.tools := []; Agent.model := "inherit";
                       Agent.content := "Do the work." |};
     Agent.filePath := helper_path |}.

Definition svc : Service.Service :=
  {| Service.basePath := "/p"; Service.HOME := Some "/home/u" |}.

Definition empty_store : Service.Store :=
  {| Service.fs := ∅; Service.fired := [] |}.






End Samples.

(** ** Canonical names *)

Module Canonical.
Import Js Naming.

(** A name in canonical form: only [[a-z0-9-]], and no hyphen next to a
    hyphen. *)
Definition canonical (s : string) : bool :=
  all kebab_char s && negb (occurs "--" s).

End Canonical.

(** ** Stored header fields *)

Module Stored.
Import Js Codec.

(** A header key or value as the decoder stores it. *)
Definition stored (k v : string) : Prop :=
  trimmed k = true /\ all (not_char ":") k = true /\ clean v = true.

End Stored.

(** ** The model factories *)

Module Factory.
Import Js Naming.

(** Command.ts, [createCommand] *)
Definition createCommand (name description content : string)
    (argumentHint : option string) : Command.Draft :=
  {| Command.name := normalizeCommandName name;
     Command.description := description;
     Command.argumentHint := argumentHint;
     Command.content := content |}.

(** Skill.ts, [createSkill]; an omitted [tools] is [[]], an omitted
    [model] is ['inherit']. *)
Definition createSkill (name description content : string)
    (tools : option (list string)) (model : option string) : Skill.Draft :=
  {| Skill.name := normalizeSkillName name;
     Skill.description := description;
     Skill.tools := default [] tools;
     Skill.model := default "inherit" model;
     Skill.content := content |}.

(** Agent.ts, [createAgent] *)
Definition createAgent (name description content : string)
    (tools : option (list string)) (model : option string) : Agent.Draft :=
  {| Agent.name := normalizeAgentName name;
     Agent.description := description;
     Agent.tools := default [] tools;
     Agent.model := default "inherit" model;
     Agent.content := content |}.

End Factory.

Module McpModel.
Import McpServer.



End McpModel.

(** ** What the getters see of a store *)

Module Observe.
Import Js ClaudeConfig Fs Service.









(** A decodable [.md] file directly inside [dir], as the flat listings
    see it. *)
Definition flatEntry (fs : Fs.t) (dir file text : string) : Prop :=
  truthy file = true /\ all (not_char "/") file = true /\ endsWith file ".md" = true
  /\ fs !! (dir +:+ "/" +:+ file) = Some (Fs.File (Text text)).

(** A [SKILL.md] inside a directory directly inside [dir]. *)
Definition skillEntry (fs : Fs.t) (dir dirName text : string) : Prop :=
  truthy dirName = true /\ all (not_char "/") dirName = true
  /\ fs !! (dir +:+ "/" +:+ dirName) = Some Fs.Dir
  /\ fs !! (dir +:+ "/" +:+ dirName +:+ "/SKILL.md") = Some (Fs.File (Text text)).

End Observe.

(** ** More sample data *)

Module Examples.
Import Js ClaudeConfig Service.

(** A service constructed without a workspace folder. *)
Definition detached : Service := {| basePath := ""; HOME := None |}.



(** The project after [createCommand] of a command [review]. *)
Definition with_review : Store :=
  (createCommand Samples.svc "review" "Review the change" "Check the diff." None None
     Samples.empty_store).2.

Definition review_listed : Command.Command :=
  {| Command.draft := {| Command.name := "review";
                         Command.description := "Review the change";
                         Command.argumentHint := None;
                         Command.content := "Check the diff." |};
     Command.filePath := "/p/.claude/commands/review.md" |}.

Definition retitle : CommandUpdates :=
  {| up_name := None; up_description := Some "Review the diff";
     up_argumentHint := None; up_content := None; up_filePath := None |}.

End Examples.

(** ** The setup commands of the extension *)

Module Setup.
Import Js ClaudeConfig Fs Service.





End Setup.

(** ** The reference directories of the launcher: [.thinkube/claude-config] *)

Module Legacy.
Import Js.

(** The lines [saveClaudeConfig] writes before the directories. *)
Definition header : list string :=
  ["# Thinkube Claude Code Configuration";
   "# Directories added here will be available to Claude for reference";
   "# Use ~ for home directory, relative paths are resolved from project root";
   ""].

(** The [content] of [saveClaudeConfig]. *)
Definition configContent (directories : list string) : string :=
  join nl (header ++ List.map (fun dir => "add-dir: " +:+ dir) directories) +:+ nl.

Fixpoint last_char (s : string) : option ascii :=
  match s with
  | "" => None
  | String c "" => Some c
  | String _ s' => last_char s'
  end.

(** [line.match(...)[1]] for the pattern of [loadClaudeConfig]: the text
    [add-dir:] at the start, white space, then one or more code units
    that are not line terminators, up to the end of the line.  The white
    space is taken greedily: the group is what follows the leading white
    space, or, when nothing follows it, the last code unit of that white
    space. *)
Definition addDirMatch (line : string) : option string :=
  match strip_prefix "add-dir:" line with
  | None => None
  | Some rest =>
      match trimStart rest with
      | "" =>
          match last_char rest with
          | Some c => if is_line_terminator c then None else Some (String c "")
          | None => None
          end
      | tail =>
          if all (fun c => negb (is_line_terminator c)) tail then Some tail else None
      end
  end.

(** The loop of [loadClaudeConfig] over the lines of the file. *)
Definition parseConfig (content : string) : list string :=
  omap (fun line => trim <$> addDirMatch line) (split LF content).

End Legacy.

(** * Properties *)

Module NamingFacts.
Import Js Naming.

Ltac each_char c :=
  destruct c as [[] [] [] [] [] [] [] []]; vm_compute; try reflexivity; try discriminate.

Lemma is_hyphen_eq c : is_hyphen c = true -> c = "-"%char.
Proof. unfold is_hyphen. intros H. by apply Ascii.eqb_eq in H. Qed.

Lemma kebab_lower_fix c : kebab_char c = true -> lower_char c = c.
Proof. each_char c. Qed.

Lemma kebab_not_slash c : kebab_char c = true -> Ascii.eqb "/"%char c = false.
Proof. each_char c. Qed.

Lemma all_kebab_lower s : all kebab_char s = true -> toLowerCase s = s.
Proof.
  induction s as [|c s IH]; simpl; [done|].
  intros [Hc Hs]%andb_prop. unfold toLowerCase in *. simpl.
  by rewrite kebab_lower_fix, IH.
Qed.

Lemma all_kebab_replace s : all kebab_char s = true -> replace_non_kebab s = s.
Proof.
  induction s as [|c s IH]; simpl; [done|].
  intros [Hc Hs]%andb_prop. unfold replace_non_kebab in *. simpl.
  by rewrite Hc, IH.
Qed.

Lemma replace_non_kebab_all s : all kebab_char (replace_non_kebab s) = true.
Proof.
  induction s as [|c s IH]; simpl; [done|].
  fold (replace_non_kebab s). rewrite IH, andb_true_r.
  destruct (kebab_char c) eqn:E; [done | by vm_compute].
Qed.

Lemma hyphen_runs_all b s :
  all kebab_char s = true -> all kebab_char (replace_hyphen_runs_from b s) = true.
Proof.
  revert b. induction s as [|c s IH]; intros b; simpl; [done|].
  intros [Hc Hs]%andb_prop.
  destruct (is_hyphen c), b; simpl; rewrite ?Hc, ?IH; done.
Qed.

Lemma hyphen_runs_idem b s :
  replace_hyphen_runs_from b (replace_hyphen_runs_from b s)
  = replace_hyphen_runs_from b s.
Proof.
  revert b. induction s as [|c s IH]; intros b; simpl; [done|].
  destruct (is_hyphen c) eqn:Hc.
  - destruct b; [apply IH|]. simpl. by rewrite IH.
  - simpl. rewrite Hc. destruct b; by rewrite IH.
Qed.

(** The three passes of the source fuse into the one pass of the rule. *)
Lemma pipeline_spec_from b s :
  replace_hyphen_runs_from b (replace_non_kebab (toLowerCase s))
  = spec_normalize_from b s.
Proof.
  revert b. induction s as [|c s IH]; intros b; [done|].
  unfold toLowerCase, replace_non_kebab in *. simpl.
  fold (spec_char c).
  destruct (is_hyphen (spec_char c)) eqn:Hc.
  - apply is_hyphen_eq in Hc as Hd. destruct b; rewrite IH; [done|by rewrite Hd].
  - by rewrite IH.
Qed.

Lemma rule_kebab s :
  all kebab_char (replace_hyphen_runs (replace_non_kebab (toLowerCase s))) = true.
Proof. apply hyphen_runs_all, replace_non_kebab_all. Qed.

Lemma rule_idem s :
  let n := fun x => replace_hyphen_runs (replace_non_kebab (toLowerCase x)) in
  n (n s) = n s.
Proof.
  intros n. unfold n at 1.
  rewrite (all_kebab_lower (n s)) by apply rule_kebab.
  rewrite (all_kebab_replace (n s)) by apply rule_kebab.
  apply hyphen_runs_idem.
Qed.

Lemma all_kebab_no_slash s : all kebab_char s = true -> startsWith s "/" = false.
Proof.
  destruct s as [|c s]; [done|]. simpl. intros [Hc _]%andb_prop.
  unfold startsWith, strip_prefix. by rewrite (kebab_not_slash c Hc).
Qed.

(** C9.  Name normalization is idempotent, for each of the three
    normalization functions: normalizing a normalized name changes
    nothing. *)
Theorem normalize_idempotent (s : string) :
  normalizeCommandName (normalizeCommandName s) = normalizeCommandName s
  /\ normalizeSkillName (normalizeSkillName s) = normalizeSkillName s
  /\ normalizeAgentName (normalizeAgentName s) = normalizeAgentName s.
Proof.
  split; [|split; apply rule_idem].
  unfold normalizeCommandName at 1.
  rewrite all_kebab_no_slash by apply rule_kebab.
  apply rule_idem.
Qed.

(** C4, as the claim states it, fails: on a name with a leading slash the
    command normalization differs from the rule and from the skill and
    agent normalizations. *)
Lemma normalize_command_diverges :
  normalizeCommandName "/Foo" = "foo"
  /\ normalizeSkillName "/Foo" = "-foo"
  /\ normalizeAgentName "/Foo" = "-foo"
  /\ spec_normalize "/Foo" = "-foo"
  /\ normalizeCommandName "/Foo" <> spec_normalize "/Foo".
Proof. vm_compute. repeat split; discriminate. Qed.

(** C4, amended.  The skill and agent normalizations are the rule of the
    specification on every name; the command normalization first drops
    one leading slash and then applies that same rule, so that the three
    agree on every name that does not begin with a slash. *)
Theorem normalize_shared_rule (s : string) :
  normalizeSkillName s = spec_normalize s
  /\ normalizeAgentName s = spec_normalize s
  /\ normalizeCommandName s
     = spec_normalize (if startsWith s "/" then slice1 s else s).
Proof. repeat split; apply pipeline_spec_from. Qed.

End NamingFacts.

(** ** Merged permissions *)

Module MergeFacts.
Import ClaudeConfig.

Lemma fresh_entries_seen (seen seen' items : list string) :
  (forall x, x ∈ seen <-> x ∈ seen') ->
  fresh_entries seen items = fresh_entries seen' items.
Proof.
  revert seen seen'. induction items as [|x items IH]; intros seen seen' Hs; [done|].
  simpl. rewrite (bool_decide_ext _ _ (Hs x)).
  case_bool_decide; [by apply IH|].
  f_equal. apply IH. intros y. rewrite !elem_of_cons. by rewrite Hs.
Qed.

Lemma foldl_set_add (acc items : list string) :
  foldl set_add acc items = acc ++ fresh_entries acc items.
Proof.
  revert acc. induction items as [|x items IH]; intros acc; simpl.
  - by rewrite app_nil_r.
  - rewrite IH. unfold set_add. case_bool_decide; [done|].
    rewrite <- app_assoc. simpl. do 2 f_equal.
    apply fresh_entries_seen. intros y.
    rewrite elem_of_app, !elem_of_cons, elem_of_nil. tauto.
Qed.

Lemma fresh_entries_elem (seen items : list string) (x : string) :
  x ∈ fresh_entries seen items <-> x ∈ items /\ x ∉ seen.
Proof.
  revert seen. induction items as [|y items IH]; intros seen; simpl.
  - rewrite !elem_of_nil. tauto.
  - case_bool_decide as Hy.
    + rewrite IH, elem_of_cons. split; [tauto|]. intros [[->|?] ?]; tauto.
    + rewrite elem_of_cons, IH, !elem_of_cons. split.
      * intros [->|[? ?]]; tauto.
      * destruct (decide (x = y)); tauto.
Qed.

Lemma fresh_entries_NoDup (seen items : list string) : NoDup (fresh_entries seen items).
Proof.
  revert seen. induction items as [|y items IH]; intros seen; simpl; [constructor|].
  case_bool_decide; [apply IH|]. constructor; [|apply IH].
  rewrite fresh_entries_elem, elem_of_cons. tauto.
Qed.

(** The array a [Set] spreads into is the union in the order of the
    specification, without repetition and with nothing lost. *)
Lemma set_spread_union (global project : list string) :
  set_spread (global ++ project) = spec_union global project
  /\ NoDup (set_spread (global ++ project))
  /\ (forall x, x ∈ set_spread (global ++ project) <-> x ∈ global \/ x ∈ project).
Proof.
  assert (Heq : set_spread (global ++ project) = spec_union global project).
  { unfold set_spread, spec_union. rewrite foldl_app, !foldl_set_add. simpl.
    f_equal. apply fresh_entries_seen. intros x.
    rewrite fresh_entries_elem, elem_of_nil. tauto. }
  rewrite Heq. unfold spec_union. split; [done|]. split.
  - apply NoDup_app. split; [apply fresh_entries_NoDup|]. split; [|apply fresh_entries_NoDup].
    intros x. rewrite !fresh_entries_elem. tauto.
  - intros x. rewrite elem_of_app, !fresh_entries_elem, elem_of_nil.
    destruct (decide (x ∈ global)); tauto.
Qed.

(** C7.  Each bucket of the merged permissions is the union of the global
    and the project list: the global entries first, then the entries only
    the project has, no pattern twice (patterns compared as strings) and
    none lost; global allow [A] merged with project allow [B] is [A; B]. *)
Theorem mergePermissions_union (base : Permissions) (override : PartialPermissions) :
  let merged := mergePermissions base override in
  let project (bucket : option (list string)) := default [] bucket in
  (allow merged = spec_union (allow base) (project (allow_opt override))
   /\ deny merged = spec_union (deny base) (project (deny_opt override))
   /\ ask merged = spec_union (ask base) (project (ask_opt override)))
  /\ (NoDup (allow merged) /\ NoDup (deny merged) /\ NoDup (ask merged))
  /\ (forall x, (x ∈ allow merged <-> x ∈ allow base \/ x ∈ project (allow_opt override))
             /\ (x ∈ deny merged <-> x ∈ deny base \/ x ∈ project (deny_opt override))
             /\ (x ∈ ask merged <-> x ∈ ask base \/ x ∈ project (ask_opt override)))
  /\ allow (mergePermissions {| allow := ["A"]; deny := []; ask := [] |}
                             {| allow_opt := Some ["B"]; deny_opt := None; ask_opt := None |})
     = ["A"; "B"].
Proof.
  intros merged project. unfold merged, mergePermissions; simpl.
  pose proof (set_spread_union (allow base) (project (allow_opt override))) as (Ha1 & Ha2 & Ha3).
  pose proof (set_spread_union (deny base) (project (deny_opt override))) as (Hd1 & Hd2 & Hd3).
  pose proof (set_spread_union (ask base) (project (ask_opt override))) as (Hk1 & Hk2 & Hk3).
  repeat split; try done; try apply Ha3; try apply Hd3; try apply Hk3.
Qed.

End MergeFacts.

(** ** Strings *)

Module StringFacts.
Import Js.

#[local] Arguments String.append !s1 s2 /.

Lemma app_nil_r (s : string) : s +:+ "" = s.
Proof. induction s as [|c s IH]; simpl; [done | by rewrite IH]. Qed.

Lemma app_assoc (a b c : string) : (a +:+ b) +:+ c = a +:+ (b +:+ c).
Proof. induction a as [|x a IH]; simpl; [done | by rewrite IH]. Qed.

Lemma all_app (p : ascii -> bool) (a b : string) :
  all p (a +:+ b) = all p a && all p b.
Proof. induction a as [|x a IH]; simpl; [done | by rewrite IH, andb_assoc]. Qed.

Lemma trimStart_split (s : string) :
  exists lead, s = lead +:+ trimStart s /\ all is_ws lead = true.
Proof.
  induction s as [|c s (lead & Hs & Hl)]; [by exists ""|].
  simpl. destruct (is_ws c) eqn:Hc.
  - exists (String c lead). simpl. by rewrite <- Hs, Hc, Hl.
  - by exists "".
Qed.

Lemma trimEnd_split (s : string) :
  exists trail, s = trimEnd s +:+ trail /\ all is_ws trail = true.
Proof.
  induction s as [|c s (trail & Hs & Ht)]; [by exists ""|].
  simpl. destruct (trimEnd s) as [|d u] eqn:He.
  - simpl in Hs. subst trail. destruct (is_ws c) eqn:Hc.
    + exists (String c s). simpl. by rewrite Hc, Ht.
    + by exists s.
  - exists trail. simpl. split; [|done]. f_equal. exact Hs.
Qed.

Lemma trim_split (s : string) :
  exists lead trail,
    s = lead +:+ trim s +:+ trail /\ all is_ws lead = true /\ all is_ws trail = true.
Proof.
  destruct (trimStart_split s) as (lead & Hs & Hl).
  destruct (trimEnd_split (trimStart s)) as (trail & Ht & Htl).
  exists lead, trail. unfold trim. by rewrite <- Ht.
Qed.

Lemma trimStart_starts (s : string) : starts_with_ws (trimStart s) = false.
Proof.
  induction s as [|c s IH]; [done|]. simpl.
  destruct (is_ws c) eqn:Hc; [done|]. simpl. exact Hc.
Qed.

Lemma trimEnd_starts (s : string) :
  starts_with_ws s = false -> starts_with_ws (trimEnd s) = false.
Proof.
  destruct s as [|c s]; [done|]. simpl. intros Hc.
  destruct (trimEnd s); rewrite ?Hc; simpl; done.
Qed.

Lemma trimEnd_ends (s : string) : ends_with_ws (trimEnd s) = false.
Proof.
  induction s as [|c s IH]; [done|]. simpl.
  destruct (trimEnd s) as [|d u] eqn:He.
  - destruct (is_ws c) eqn:Hc; [done|]. simpl. exact Hc.
  - exact IH.
Qed.

Lemma trim_clean (s : string) :
  starts_with_ws (trim s) = false /\ ends_with_ws (trim s) = false.
Proof.
  split; [apply trimEnd_starts, trimStart_starts | apply trimEnd_ends].
Qed.

Lemma split_nonempty (sep : ascii) (s : string) : split sep s <> [].
Proof.
  induction s as [|c s IH]; simpl; [done|].
  destruct (split sep s); [done|]. by destruct (Ascii.eqb c sep).
Qed.

Lemma split_plain (sep : ascii) (s : string) :
  all (not_char sep) s = true -> split sep s = [s].
Proof.
  induction s as [|c s IH]; simpl; [done|].
  intros [Hc Hs]%andb_prop. rewrite (IH Hs).
  unfold not_char in Hc. destruct (Ascii.eqb c sep); [discriminate Hc | reflexivity].
Qed.

Lemma split_app (sep : ascii) (a b : string) :
  split sep (a +:+ String sep b) = split sep a ++ split sep b.
Proof.
  induction a as [|c a IH]; simpl.
  - rewrite Ascii.eqb_refl. pose proof (split_nonempty sep b).
    by destruct (split sep b).
  - rewrite IH. pose proof (split_nonempty sep a).
    destruct (split sep a) as [|w ws]; [done|]. simpl.
    by destruct (Ascii.eqb c sep).
Qed.

Lemma last_split (sep : ascii) (dir file : string) :
  all (not_char sep) file = true ->
  List.last (split sep (dir +:+ String sep file)) "" = file.
Proof.
  intros Hf. rewrite split_app, (split_plain sep file Hf). apply last_last.
Qed.

Lemma strip_md_app (s : string) :
  s <> "" -> strip_prefix ".md" s = None -> strip_prefix ".md" (s +:+ ".md") = None.
Proof.
  intros Hne Hs. destruct s as [|c1 s]; [done|].
  cbn [strip_prefix String.append] in *.
  destruct (Ascii.eqb_spec "."%char c1) as [<-|]; [|done].
  destruct s as [|c2 s]; [done|]. cbn [strip_prefix String.append] in *.
  destruct (Ascii.eqb_spec "m"%char c2) as [<-|]; [|done].
  destruct s as [|c3 s]; [done|]. cbn [strip_prefix String.append] in *.
  by destruct (Ascii.eqb_spec "d"%char c3).
Qed.

Lemma remove_md_extension (base : string) :
  occurs ".md" base = false -> remove_first ".md" (base +:+ ".md") = base.
Proof.
  induction base as [|c base IH]; [done|].
  intros Ho. cbn [occurs] in Ho.
  destruct (strip_prefix ".md" (String c base)) eqn:Hp; [done|].
  pose proof (strip_md_app (String c base) ltac:(done) Hp) as Hq.
  change (String c base +:+ ".md") with (String c (base +:+ ".md")) in *.
  cbn [remove_first]. rewrite Hq. by rewrite IH.
Qed.

Lemma fileStem_md (dir base : string) :
  all (not_char "/") base = true -> occurs ".md" base = false ->
  Codec.fileStem (dir +:+ "/" +:+ base +:+ ".md") = base.
Proof.
  intros Hb Ho. unfold Codec.fileStem.
  change (dir +:+ "/" +:+ base +:+ ".md") with (dir +:+ String "/" (base +:+ ".md")).
  rewrite last_split by (by rewrite all_app, Hb).
  by apply remove_md_extension.
Qed.

Lemma containingDir_of (dir container file : string) :
  all (not_char "/") container = true -> all (not_char "/") file = true ->
  Codec.containingDir (dir +:+ "/" +:+ container +:+ "/" +:+ file) = Some container.
Proof.
  intros Hc Hf. unfold Codec.containingDir.
  change (dir +:+ "/" +:+ container +:+ "/" +:+ file)
    with (dir +:+ String "/" (container +:+ String "/" file)).
  rewrite !split_app, (split_plain _ _ Hc), (split_plain _ _ Hf).
  rewrite !rev_app_distr. done.
Qed.

End StringFacts.

(** ** Decoded content *)

Module ContentFacts.
Import Js Codec.

(** C10.  Whenever the decoder of a kind accepts a text, the content of
    the record is the body behind the closing delimiter with its leading
    and trailing white space removed: the body is the content between
    two runs of white space, and the content neither begins nor ends
    with white space. *)
Theorem decoded_content_trimmed (k : Artifact.Kind) (text sourcePath : string)
    (a : Artifact.Artifact) :
  Artifact.decode k text sourcePath = Some a ->
  exists frontmatter body lead trail,
    frontmatterMatch text = Some (frontmatter, body)
    /\ Artifact.content a = trim body
    /\ body = lead +:+ Artifact.content a +:+ trail
    /\ all is_ws lead = true /\ all is_ws trail = true
    /\ starts_with_ws (Artifact.content a) = false
    /\ ends_with_ws (Artifact.content a) = false.
Proof.
  intros Hdec.
  assert (Hc : exists frontmatter body,
             frontmatterMatch text = Some (frontmatter, body)
             /\ Artifact.content a = trim body).
  { destruct k; simpl in Hdec;
      [unfold Command.parseCommandMarkdown in Hdec
      |unfold Skill.parseSkillMarkdown in Hdec
      |unfold Agent.parseAgentMarkdown in Hdec];
      destruct (frontmatterMatch text) as [[frontmatter body]|]; simplify_eq/=;
      by exists frontmatter, body. }
  destruct Hc as (frontmatter & body & Hm & ->).
  destruct (StringFacts.trim_split body) as (lead & trail & Hb & Hl & Ht).
  destruct (StringFacts.trim_clean body) as [Hs He].
  by exists frontmatter, body, lead, trail.
Qed.

Lemma decoded_content_trimmed_witness :
  Artifact.decode Artifact.agent Samples.helper_text Samples.helper_path
  = Some (Artifact.AAgent Samples.helper_agent)
  /\ exists frontmatter body lead trail,
       frontmatterMatch Samples.helper_text = Some (frontmatter, body)
       /\ Artifact.content (Artifact.AAgent Samples.helper_agent) = trim body
       /\ body = lead +:+ Artifact.content (Artifact.AAgent Samples.helper_agent) +:+ trail
       /\ all is_ws lead = true /\ all is_ws trail = true
       /\ starts_with_ws (Artifact.content (Artifact.AAgent Samples.helper_agent)) = false
       /\ ends_with_ws (Artifact.content (Artifact.AAgent Samples.helper_agent)) = false.
Proof.
  split; [reflexivity|].
  apply (decoded_content_trimmed Artifact.agent Samples.helper_text
           Samples.helper_path (Artifact.AAgent Samples.helper_agent)).
  reflexivity.
Defined.

End ContentFacts.

(** ** Names of decoded artifacts *)

Module NameFacts.
Import Js Codec.

(** C5, as the claim states it, fails for an agent whose header carries
    the key [name] with an empty value: the key is present, yet the name
    is taken from the file. *)
Lemma agent_empty_name_header :
  let text := "---" +:+ nl +:+ "name:" +:+ nl +:+ "---" +:+ nl +:+ "body" in
  parseMetadata "name:" !! "name" = Some ""
  /\ (Agent.name <$> (Agent.draft <$>
        Agent.parseAgentMarkdown text "/p/.claude/agents/foo.md")) = Some "foo".
Proof. vm_compute. done. Qed.

(** Where [.md] also occurs inside the file name, the first occurrence is
    the one removed, and what is left is not the stem of the file. *)
Lemma stem_removes_first_occurrence :
  fileStem "/p/.claude/commands/a.mdx.md" = "ax.md".
Proof. reflexivity. Qed.

(** C5, amended.  For a source file [base.md] in which [.md] occurs only
    as the extension, a Command is named [base] whatever the header says;
    an Agent is named by the header key [name] when that key is present
    with a non-empty value, else [base]; a Skill stored in a directory
    [container] is named by the header key [name] when present with a
    non-empty value, else [container]. *)
Theorem name_resolution (text dir base container file : string) :
  all (not_char "/") base = true ->
  occurs ".md" base = false ->
  all (not_char "/") container = true ->
  all (not_char "/") file = true ->
  let flat := dir +:+ "/" +:+ base +:+ ".md" in
  let nested := dir +:+ "/" +:+ container +:+ "/" +:+ file in
  let header frontmatter := parseMetadata frontmatter !! "name" in
  (forall c, Command.parseCommandMarkdown text flat = Some c ->
             Command.name (Command.draft c) = base)
  /\ (forall a, Agent.parseAgentMarkdown text flat = Some a ->
        exists frontmatter body,
          frontmatterMatch text = Some (frontmatter, body)
          /\ Agent.name (Agent.draft a)
             = match header frontmatter with
               | Some n => if truthy n then n else base
               | None => base
               end)
  /\ (forall s, Skill.parseSkillMarkdown text nested = Some s ->
        exists frontmatter body,
          frontmatterMatch text = Some (frontmatter, body)
          /\ Skill.name (Skill.draft s)
             = match header frontmatter with
               | Some n => if truthy n then n else container
               | None => container
               end).
Proof.
  intros Hb Ho Hc Hf flat nested header.
  pose proof (StringFacts.fileStem_md dir base Hb Ho) as Hstem.
  pose proof (StringFacts.containingDir_of dir container file Hc Hf) as Hdir.
  fold flat in Hstem. fold nested in Hdir.
  unfold Command.parseCommandMarkdown, Agent.parseAgentMarkdown,
    Skill.parseSkillMarkdown.
  destruct (frontmatterMatch text) as [[frontmatter body]|].
  - rewrite Hstem, Hdir. repeat split.
    + intros c [= <-]. done.
    + intros a [= <-]. exists frontmatter, body. done.
    + intros s [= <-]. exists frontmatter, body. split; [done|]. simpl.
      unfold header, or_else. destruct (parseMetadata frontmatter !! "name") as [n|].
      * destruct (truthy n); [done|]. by destruct container.
      * by destruct container.
  - repeat split; intros ? [=].
Qed.

Lemma name_resolution_witness :
  (forall c, Command.parseCommandMarkdown Samples.helper_text
               ("/p/.claude/commands" +:+ "/" +:+ "helper" +:+ ".md") = Some c ->
             Command.name (Command.draft c) = "helper")
  /\ Agent.name (Agent.draft Samples.helper_agent) = "helper".
Proof.
  split; [|reflexivity].
  apply (name_resolution Samples.helper_text "/p/.claude/commands" "helper"
           "helper" "SKILL.md"); reflexivity.
Defined.

End NameFacts.

(** ** The store *)

Module StoreFacts.
Import Js ClaudeConfig Fs Service.

#[local] Arguments String.append !s1 s2 /.

Ltac run := unfold bind, ret, throw, read_fs, update_fs, fire, loadConfig, discard.


Lemma claude_md_path (basePath : string) :
  truthy basePath = true ->
  Some (path_join basePath "CLAUDE.md") = claudeMdPath (createDefaultConfig basePath).
Proof. by destruct basePath. Qed.



Lemma getConfig_ok (this : Service) (projectPath : option string) (s : Store) :
  truthy (resolveBase this projectPath) = true ->
  getConfig this Project projectPath s
  = (Ok (load (fs s) (resolveBase this projectPath)), s).
Proof. intros Hb. unfold getConfig. by rewrite Hb. Qed.

Lemma getConfig_throws (this : Service) (projectPath : option string) (s : Store) :
  truthy (resolveBase this projectPath) = false ->
  getConfig this Project projectPath s = (Throw NoWorkspace, s).
Proof. intros Hb. unfold getConfig. by rewrite Hb. Qed.









(** *** Deleting a hook *)



Lemma processHooks_nil (event : Hook.HookEvent) : processHooks event None = [].
Proof. done. Qed.


Lemma withoutHook_others (target : Hook.Hook) (groups : list Hook.HookMatcher) :
  Forall (fun g => Hook.matcher g <> Hook.hook_matcher target /\ Hook.hooks g <> [])
         groups ->
  withoutHook target groups = groups.
Proof.
  unfold withoutHook. induction 1 as [|g groups [Hm Hh] _ IH]; [done|].
  cbn [List.map]. rewrite bool_decide_eq_false_2 by done.
  rewrite filter_cons, decide_True, IH; [done|].
  destruct (Hook.hooks g); [done|simpl; lia].
Qed.

Lemma withoutHook_app (target : Hook.Hook) (a b : list Hook.HookMatcher) :
  withoutHook target (a ++ b) = withoutHook target a ++ withoutHook target b.
Proof. unfold withoutHook. by rewrite map_app, filter_app. Qed.

(** Where the identity names one action only - one group carries the
    matcher, one of its actions carries the command, and no group is
    empty - the two passes remove exactly that action, and its group
    when nothing else is left in it. *)
Lemma withoutHook_single (target : Hook.Hook) (before after : list Hook.HookMatcher)
    (front back : list Hook.HookDefinition) (d : Hook.HookDefinition) :
  Hook.def_command d = Hook.command target ->
  Forall (fun g => Hook.matcher g <> Hook.hook_matcher target /\ Hook.hooks g <> [])
         (before ++ after) ->
  Forall (fun h => Hook.def_command h <> Hook.command target) (front ++ back) ->
  withoutHook target
    (before ++ {| Hook.matcher := Hook.hook_matcher target;
                  Hook.hooks := front ++ d :: back |} :: after)
  = before
    ++ match front ++ back with
       | [] => []
       | rest => [ {| Hook.matcher := Hook.hook_matcher target; Hook.hooks := rest |} ]
       end
    ++ after.
Proof.
  intros Hd [Hb Ha]%Forall_app [Hf Hk]%Forall_app.
  change (?g :: after) with ([g] ++ after).
  rewrite !withoutHook_app, (withoutHook_others _ _ Hb), (withoutHook_others _ _ Ha).
  do 2 f_equal. unfold withoutHook. cbn [List.map Hook.matcher Hook.hooks].
  rewrite bool_decide_eq_true_2 by done.
  assert (Hkeep : forall l, Forall (fun h => Hook.def_command h <> Hook.command target) l ->
                            filter (fun h => Hook.def_command h <> Hook.command target) l = l).
  { induction 1 as [|h l Hh _ IH]; [done|]. by rewrite filter_cons, decide_True, IH. }
  assert (Hin : filter (fun h => Hook.def_command h <> Hook.command target)
                       (front ++ d :: back) = front ++ back).
  { rewrite filter_app, filter_cons, decide_False by (intros Hne; by apply Hne).
    by rewrite (Hkeep _ Hf), (Hkeep _ Hk). }
  rewrite Hin, filter_cons. cbn [Hook.hooks].
  destruct (front ++ back) as [|h rest].
  - by rewrite decide_False by (simpl; lia).
  - by rewrite decide_True by (simpl; lia).
Qed.



(** *** Notifications *)

Lemma listFlat_pure {A} (parse : string -> string -> option A) (dir : string) (s : Store) :
  exists r, listFlat parse dir s = (r, s).
Proof.
  unfold listFlat. run. destruct (existsSync (fs s) dir); [|by eauto].
  destruct (readdirSync (fs s) dir); by eauto.
Qed.

Lemma getCommands_pure (this : Service) (projectPath : option string) (s : Store) :
  (exists l, getCommands this projectPath s = (Ok l, s)
             /\ truthy (resolveBase this projectPath) = true)
  \/ (exists e, getCommands this projectPath s = (Throw e, s)).
Proof.
  unfold getCommands, bind.
  destruct (truthy (resolveBase this projectPath)) eqn:Hb.
  - rewrite (getConfig_ok _ _ _ Hb).
    destruct (listFlat_pure Command.parseCommandMarkdown
                (commandsDir (load (fs s) (resolveBase this projectPath))) s) as [[l|e] ->];
      by eauto.
  - rewrite (getConfig_throws _ _ _ Hb). by eauto.
Qed.

Lemma getAgents_pure (this : Service) (projectPath : option string) (s : Store) :
  (exists l, getAgents this projectPath s = (Ok l, s)
             /\ truthy (resolveBase this projectPath) = true)
  \/ (exists e, getAgents this projectPath s = (Throw e, s)).
Proof.
  unfold getAgents, bind.
  destruct (truthy (resolveBase this projectPath)) eqn:Hb.
  - rewrite (getConfig_ok _ _ _ Hb).
    destruct (listFlat_pure Agent.parseAgentMarkdown
                (agentsDir (load (fs s) (resolveBase this projectPath))) s) as [[l|e] ->];
      by eauto.
  - rewrite (getConfig_throws _ _ _ Hb). by eauto.
Qed.











(** *** Creating artifacts *)








End StoreFacts.

(** ** Round trip through the codecs *)

Module CodecFacts.
Import Js Codec StringFacts.

#[local] Arguments String.append !s1 s2 /.

Lemma andb_split (a b : bool) : a && b = true -> a = true /\ b = true.
Proof. by destruct a, b. Qed.

Lemma trimStart_id (s : string) : starts_with_ws s = false -> trimStart s = s.
Proof. destruct s as [|c s]; [done|]. simpl. by intros ->. Qed.

Lemma trimEnd_cons (c : ascii) (s : string) :
  trimEnd (String c s)
  = match trimEnd s with
    | "" => if is_ws c then "" else String c ""
    | t => String c t
    end.
Proof. done. Qed.

Lemma trimEnd_id (s : string) : ends_with_ws s = false -> trimEnd s = s.
Proof.
  induction s as [|c s IH]; [done|]. destruct s as [|d u].
  - simpl. by intros ->.
  - intros He. change (ends_with_ws (String d u) = false) in He.
    by rewrite trimEnd_cons, (IH He).
Qed.

Lemma trimmed_trim (s : string) : trimmed s = true -> trim s = s.
Proof.
  unfold trimmed, trim. intros [Hs He]%andb_split.
  apply negb_true_iff in Hs, He. by rewrite (trimStart_id _ Hs), (trimEnd_id _ He).
Qed.

Lemma clean_trim (s : string) : clean s = true -> trim s = s.
Proof. unfold clean. intros [H _]%andb_split. by apply trimmed_trim. Qed.

Lemma ends_app (a b : string) :
  truthy b = true -> ends_with_ws (a +:+ b) = ends_with_ws b.
Proof.
  intros Hb. induction a as [|c a IH]; [done|].
  simpl. rewrite IH. destruct (a +:+ b) eqn:E; [|done].
  destruct a; [simpl in E; by subst b | done].
Qed.

(** *** The delimiters *)

Lemma cut_at_eq (pat s : string) :
  cut_at pat s
  = match strip_prefix pat s with
    | Some rest => Some ("", rest)
    | None =>
        match s with
        | "" => None
        | String c s' => (fun '(a, b) => (String c a, b)) <$> cut_at pat s'
        end
    end.
Proof.
  destruct s as [|c s']; [done|]. cbn [cut_at].
  destruct (strip_prefix pat (String c s')); [done|].
  by destruct (cut_at pat s') as [[a b]|].
Qed.

Lemma cut_at_other (c : ascii) (rest : string) :
  Ascii.eqb LF c = false ->
  cut_at closing (String c rest)
  = (fun '(a, b) => (String c a, b)) <$> cut_at closing rest.
Proof.
  intros Hc. rewrite cut_at_eq.
  change (strip_prefix closing (String c rest))
    with (if Ascii.eqb LF c then strip_prefix ("---" +:+ nl) rest else None).
  by rewrite Hc.
Qed.

Lemma cut_at_line (line rest : string) :
  all (not_char LF) line = true ->
  cut_at closing (line +:+ rest)
  = (fun '(a, b) => (line +:+ a, b)) <$> cut_at closing rest.
Proof.
  induction line as [|c line IH].
  - intros _. change ("" +:+ rest) with rest.
    by destruct (cut_at closing rest) as [[a b]|].
  - intros [Hc Hl]%andb_split. unfold not_char in Hc.
    rewrite Ascii.eqb_sym in Hc. apply negb_true_iff in Hc.
    change (String c line +:+ rest) with (String c (line +:+ rest)).
    rewrite (cut_at_other _ _ Hc), (IH Hl).
    by destruct (cut_at closing rest) as [[a b]|].
Qed.

(** A line break followed by a line that does not open with a hyphen is
    not the closing delimiter. *)
Lemma cut_at_break (c : ascii) (rest : string) :
  Ascii.eqb "-" c = false ->
  cut_at closing (nl +:+ String c rest)
  = (fun '(a, b) => (nl +:+ a, b)) <$> cut_at closing (String c rest).
Proof.
  intros Hc. change (nl +:+ String c rest) with (String LF (String c rest)).
  rewrite cut_at_eq.
  change (strip_prefix closing (String LF (String c rest)))
    with (if Ascii.eqb LF LF
          then if Ascii.eqb "-" c then strip_prefix ("--" +:+ nl) rest else None
          else None).
  by rewrite Ascii.eqb_refl, Hc.
Qed.

Lemma cut_at_closing (content : string) :
  cut_at closing (nl +:+ "---" +:+ nl +:+ content) = Some ("", content).
Proof. done. Qed.

Lemma cut_at_lines (lines : list string) (content : string) :
  lines <> [] -> forallb safe_line lines = true ->
  cut_at closing (lines_then lines ("---" +:+ nl +:+ content))
  = Some (join nl lines, content).
Proof.
  induction lines as [|l ls IH]; [done|]. intros _ Hall.
  cbn [forallb] in Hall. apply andb_split in Hall as [Hl Hls].
  unfold safe_line in Hl. apply andb_split in Hl as [[Hlf Hne]%andb_split Hd].
  cbn [lines_then]. rewrite (cut_at_line _ _ Hlf).
  destruct ls as [|l2 ls].
  - cbn [lines_then]. rewrite cut_at_closing. simpl. by rewrite app_nil_r.
  - cbn [forallb] in Hls. apply andb_split in Hls as [Hl2 Hls].
    pose proof Hl2 as Hl2'. unfold safe_line in Hl2'.
    apply andb_split in Hl2' as [[_ Hne2]%andb_split Hd2].
    destruct l2 as [|c l2]; [done|].
    assert (Hc : Ascii.eqb "-" c = false).
    { unfold startsWith in Hd2. cbn [strip_prefix] in Hd2.
      by destruct (Ascii.eqb "-" c). }
    cbn [lines_then] in *.
    change (String c l2 +:+ ?x) with (String c (l2 +:+ x)).
    rewrite (cut_at_break _ _ Hc).
    change (String c (l2 +:+ ?x)) with (String c l2 +:+ x).
    rewrite IH; [done|done|]. cbn [forallb]. by rewrite Hl2, Hls.
Qed.

Lemma join_cons (sep x y : string) (rest : list string) :
  join sep (x :: y :: rest) = x +:+ sep +:+ join sep (y :: rest).
Proof. done. Qed.

Lemma join_then (lines : list string) (content : string) :
  join nl (lines ++ ["---"; ""]) +:+ content
  = lines_then lines ("---" +:+ nl +:+ content).
Proof.
  induction lines as [|l ls IH]; [done|].
  cbn [lines_then]. rewrite <- IH.
  change ((l :: ls) ++ ["---"; ""]) with (l :: (ls ++ ["---"; ""])).
  destruct (ls ++ ["---"; ""]) as [|y rest] eqn:E; [by destruct ls|].
  by rewrite join_cons, !app_assoc.
Qed.

(** *** Header lines *)

Lemma span_key (k rest : string) :
  all (not_char ":") k = true ->
  span (fun c => negb (Ascii.eqb c ":")) (k +:+ String ":" rest)
  = (k, String ":" rest).
Proof.
  induction k as [|c k IH]; [done|]. intros [Hc Hk]%andb_split.
  change (String c k +:+ ?x) with (String c (k +:+ x)).
  cbn [span]. unfold not_char in Hc. by rewrite Hc, (IH Hk).
Qed.

Lemma all_weaken (p q : ascii -> bool) (s : string) :
  (forall c, p c = true -> q c = true) -> all p s = true -> all q s = true.
Proof.
  intros Hpq. induction s as [|c s IH]; [done|]. simpl.
  intros [Hc Hs]%andb_split. by rewrite (Hpq _ Hc), IH.
Qed.

Lemma key_ok_parts (k : string) :
  key_ok k = true ->
  truthy k = true /\ trim k = k /\ all (not_char ":") k = true
  /\ all (not_char LF) k = true /\ startsWith k "-" = false.
Proof.
  unfold key_ok. intros [[[Ht Hm]%andb_split Ha]%andb_split Hd]%andb_split.
  repeat split; [done|by apply trimmed_trim| | |by apply negb_true_iff].
  - revert Ha. apply all_weaken. by intros c [? ?]%andb_split.
  - revert Ha. apply all_weaken. by intros c [? ?]%andb_split.
Qed.

Lemma clean_parts (v : string) :
  clean v = true ->
  trim v = v /\ starts_with_ws v = false
  /\ all (fun c => negb (is_line_terminator c)) v = true
  /\ all (not_char LF) v = true.
Proof.
  intros Hc. pose proof (clean_trim _ Hc) as Ht. unfold clean, trimmed in Hc.
  apply andb_split in Hc as [[Hs _]%andb_split Hl].
  repeat split; [done|by apply negb_true_iff|done|].
  revert Hl. apply all_weaken. intros c. unfold is_line_terminator, not_char.
  by destruct (Ascii.eqb c LF).
Qed.

Lemma lineMatch_header (k v : string) :
  key_ok k = true -> clean v = true ->
  lineMatch (headerLine (k, v)) = Some (k, v).
Proof.
  intros (Hk & _ & Hcolon & _ & _)%key_ok_parts (_ & Hs & Hl & _)%clean_parts.
  unfold lineMatch, headerLine. cbn [fst snd].
  change (k +:+ ": " +:+ v) with (k +:+ String ":" (String " " v)).
  rewrite (span_key _ _ Hcolon). destruct k as [|c k]; [done|].
  change (trimStart (String " " v)) with (trimStart v).
  by rewrite (trimStart_id _ Hs), Hl.
Qed.

Lemma safe_header (k v : string) :
  key_ok k = true -> clean v = true -> safe_line (headerLine (k, v)) = true.
Proof.
  intros (Hk & _ & _ & Hlf & Hd)%key_ok_parts (_ & _ & _ & Hv)%clean_parts.
  unfold safe_line, headerLine. cbn [fst snd].
  rewrite !all_app, Hlf, Hv. destruct k as [|c k]; [done|].
  unfold startsWith in *. cbn [strip_prefix String.append] in *.
  by destruct (Ascii.eqb "-" c).
Qed.

Lemma safe_headers (fields : list (string * string)) :
  fields_ok fields = true -> forallb safe_line (List.map headerLine fields) = true.
Proof.
  induction fields as [|[k v] fields IH]; [done|]. unfold fields_ok in *.
  cbn [forallb List.map fst snd]. intros [[Hk Hv]%andb_split Hf]%andb_split.
  by rewrite (safe_header _ _ Hk Hv), IH.
Qed.

Lemma split_lines (lines : list string) :
  lines <> [] -> forallb safe_line lines = true -> split LF (join nl lines) = lines.
Proof.
  induction lines as [|l ls IH]; [done|]. intros _ Hall.
  cbn [forallb] in Hall. apply andb_split in Hall as [Hl Hls].
  unfold safe_line in Hl. apply andb_split in Hl as [[Hlf _]%andb_split _].
  destruct ls as [|l2 ls]; [by apply split_plain|].
  rewrite join_cons. change (nl +:+ ?x) with (String LF x).
  by rewrite split_app, (split_plain _ _ Hlf), IH.
Qed.

Lemma parse_fields (fields : list (string * string)) :
  fields <> [] -> fields_ok fields = true ->
  parseMetadata (join nl (List.map headerLine fields)) = as_map fields.
Proof.
  intros Hne Hok. unfold parseMetadata, as_map.
  rewrite split_lines; [|by destruct fields|by apply safe_headers].
  generalize (∅ : gmap string string). clear Hne.
  induction fields as [|[k v] fields IH]; [done|]. intros m.
  unfold fields_ok in *. cbn [forallb fst snd] in Hok.
  apply andb_split in Hok as [[Hk Hv]%andb_split Hf].
  cbn [List.map foldl]. rewrite (lineMatch_header _ _ Hk Hv).
  destruct (key_ok_parts _ Hk) as (_ & -> & _). rewrite (clean_trim _ Hv).
  by apply IH.
Qed.

(** A document with a well-formed, non-empty header decodes into its
    header fields and its content. *)
Lemma document_decodes (fields : list (string * string)) (content : string) :
  fields <> [] -> fields_ok fields = true ->
  exists frontmatter,
    frontmatterMatch (document fields content) = Some (frontmatter, content)
    /\ parseMetadata frontmatter = as_map fields.
Proof.
  intros Hne Hok. exists (join nl (List.map headerLine fields)).
  split; [|by apply parse_fields].
  unfold frontmatterMatch, document.
  destruct (List.map headerLine fields) as [|l ls] eqn:E; [by destruct fields|].
  change ("---" :: (l :: ls) ++ ["---"; ""]) with ("---" :: l :: (ls ++ ["---"; ""])).
  rewrite join_cons, !app_assoc.
  change (l :: ls ++ ["---"; ""]) with ((l :: ls) ++ ["---"; ""]).
  rewrite join_then.
  change (strip_prefix ("---" +:+ nl) ("---" +:+ nl +:+ ?x)) with (Some x).
  change (nl +:+ "---" +:+ nl) with closing.
  apply cut_at_lines; [done|]. rewrite <- E. by apply safe_headers.
Qed.

(** *** Tool lists *)

Lemma tool_ok_parts (t : string) :
  tool_ok t = true -> truthy t = true /\ clean t = true /\ all (not_char ",") t = true.
Proof. unfold tool_ok. by intros [[? ?]%andb_split ?]%andb_split. Qed.

Lemma split_tools (tools : list string) :
  tools <> [] -> forallb tool_ok tools = true ->
  List.map trim (split "," (join ", " tools)) = tools.
Proof.
  induction tools as [|t ts IH]; [done|]. intros _ Hall.
  cbn [forallb] in Hall. apply andb_split in Hall as [Ht Hts].
  destruct (tool_ok_parts _ Ht) as (_ & Hc & Hcomma).
  destruct ts as [|t2 ts].
  - cbn [join]. rewrite (split_plain _ _ Hcomma). cbn [List.map].
    by rewrite (clean_trim _ Hc).
  - rewrite join_cons.
    change (", " +:+ ?x) with (String "," (String " " x)).
    rewrite split_app, (split_plain _ _ Hcomma).
    specialize (IH ltac:(done) Hts).
    cbn [split]. pose proof (split_nonempty "," (join ", " (t2 :: ts))) as Hne.
    destruct (split "," (join ", " (t2 :: ts))) as [|w ws]; [done|].
    change (Ascii.eqb " " ",") with false. cbv iota.
    cbn [app List.map] in *. rewrite (clean_trim _ Hc).
    change (trim (String " " w)) with (trim w). by rewrite IH.
Qed.

Lemma clean_tools (tools : list string) :
  tools <> [] -> forallb tool_ok tools = true ->
  truthy (join ", " tools) = true /\ clean (join ", " tools) = true.
Proof.
  induction tools as [|t ts IH]; [done|]. intros _ Hall.
  cbn [forallb] in Hall. apply andb_split in Hall as [Ht Hts].
  destruct (tool_ok_parts _ Ht) as (Hne & Hc & _).
  destruct ts as [|t2 ts]; [done|].
  destruct (IH ltac:(done) Hts) as [Hj Hcj]. rewrite join_cons.
  set (J := join ", " (t2 :: ts)) in *.
  destruct t as [|c t]; [done|]. split; [done|].
  unfold clean, trimmed in *.
  apply andb_split in Hc as [[Hs _]%andb_split Hl].
  apply andb_split in Hcj as [[_ He]%andb_split Hlj].
  rewrite !all_app, Hl, Hlj.
  rewrite ends_app by (by destruct J).
  change (", " +:+ J) with (String "," (String " " J)).
  change (ends_with_ws (String "," (String " " J)))
    with (ends_with_ws (String " " J)).
  assert (Hend : ends_with_ws (String " " J) = ends_with_ws J) by by destruct J.
  rewrite Hend, He. change (starts_with_ws (String c t +:+ ?x)) with (is_ws c).
  change (starts_with_ws (String c t)) with (is_ws c) in Hs. by rewrite Hs.
Qed.

Lemma parseTools_join (tools : list string) :
  tools <> [] -> forallb tool_ok tools = true ->
  parseTools (Some (join ", " tools)) = tools.
Proof.
  intros Hne Hok. unfold parseTools.
  destruct (clean_tools _ Hne Hok) as [-> _]. by apply split_tools.
Qed.

Lemma or_else_empty (v : string) : or_else (Some v) "" = v.
Proof. by destruct v. Qed.

Lemma or_else_truthy (v fallback : string) :
  truthy v = true -> or_else (Some v) fallback = v.
Proof. by destruct v. Qed.

(** *** The three codecs *)

Lemma command_document (d : Command.Draft) :
  Command.commandToMarkdown d = document (Command.fields d) (Command.content d).
Proof. destruct d as [n desc [[|c h]|] body]; reflexivity. Qed.

Lemma command_round_trip (c : Command.Command) :
  Command.valid c = true ->
  Command.parseCommandMarkdown (Command.commandToMarkdown (Command.draft c))
                               (Command.filePath c) = Some c.
Proof.
  destruct c as [[n desc hint body] path]. unfold Command.valid.
  cbn [Command.draft Command.filePath Command.name Command.description
       Command.argumentHint Command.content].
  intros [[[Hn Hd]%andb_split Hh]%andb_split Hb]%andb_split.
  apply String.eqb_eq in Hn. rewrite command_document.
  destruct (document_decodes
              (Command.fields {| Command.name := n; Command.description := desc;
                                 Command.argumentHint := hint;
                                 Command.content := body |}) body)
    as (frontmatter & Hm & Hp); [done| |].
  { unfold Command.fields, fields_ok.
    cbn [Command.description Command.argumentHint forallb fst snd].
    rewrite Hd. destruct hint as [h|]; [|done].
    apply andb_split in Hh as [-> Hh]. cbn [forallb fst snd]. by rewrite Hh. }
  unfold Command.parseCommandMarkdown.
  cbn [Command.content] in *. rewrite Hm, Hp, Hn, (trimmed_trim _ Hb).
  unfold Command.fields, as_map.
  cbn [Command.description Command.argumentHint].
  destruct hint as [h|].
  - apply andb_split in Hh as [-> _]. cbn [foldl fst snd].
    rewrite lookup_insert_eq, lookup_insert_ne, lookup_insert_eq by done.
    by rewrite or_else_empty.
  - cbn [foldl fst snd]. rewrite lookup_insert_eq, lookup_insert_ne by done.
    by rewrite lookup_empty, or_else_empty.
Qed.

Lemma model_cases (m : string) :
  model_ok m = true -> m = "inherit" \/ m = "haiku" \/ m = "sonnet" \/ m = "opus".
Proof.
  unfold model_ok. intros H.
  destruct (String.eqb_spec m "inherit"); [by left|].
  destruct (String.eqb_spec m "haiku"); [by right; left|].
  destruct (String.eqb_spec m "sonnet"); [by right; right; left|].
  destruct (String.eqb_spec m "opus"); [by right; right; right|done].
Qed.

Ltac decide_model :=
  repeat match goal with
         | |- context [String.eqb ?a ?b] =>
             let r := eval vm_compute in (String.eqb a b) in
             change (String.eqb a b) with r
         end.

Ltac lookups :=
  repeat (rewrite lookup_insert_eq || rewrite lookup_insert_ne by done
          || rewrite lookup_empty).

Lemma skill_document (d : Skill.Draft) :
  Skill.skillToMarkdown d = document (Skill.fields d) (Skill.content d).
Proof.
  destruct d as [n desc [|t ts] m body]; unfold Skill.skillToMarkdown, Skill.fields;
    cbn [Skill.tools Skill.model]; by destruct (String.eqb m "inherit").
Qed.

Lemma skill_round_trip (k : Skill.Skill) :
  Skill.valid k = true ->
  Skill.parseSkillMarkdown (Skill.skillToMarkdown (Skill.draft k))
                           (Skill.filePath k) = Some k.
Proof.
  destruct k as [[n desc tools m body] path]. unfold Skill.valid.
  cbn [Skill.draft Skill.filePath Skill.name Skill.description Skill.tools
       Skill.model Skill.content].
  intros [[[[[Hn Hcn]%andb_split Hd]%andb_split Ht]%andb_split Hm]%andb_split
            Hb]%andb_split.
  rewrite skill_document. cbn [Skill.content].
  assert (Htools : tools <> [] ->
            truthy (join ", " tools) = true /\ clean (join ", " tools) = true
            /\ parseTools (Some (join ", " tools)) = tools).
  { intros Hne. destruct (clean_tools _ Hne Ht). split; [done|]. split; [done|].
    by apply parseTools_join. }
  destruct (document_decodes
              (Skill.fields {| Skill.name := n; Skill.description := desc;
                               Skill.tools := tools; Skill.model := m;
                               Skill.content := body |}) body)
    as (frontmatter & Hf & Hp); [done| |].
  { unfold Skill.fields, fields_ok.
    cbn [Skill.name Skill.description Skill.tools Skill.model forallb fst snd app].
    rewrite Hcn, Hd. change (key_ok "name") with true.
    change (key_ok "description") with true. cbn [andb].
    rewrite forallb_app. apply andb_true_intro. split.
    - destruct tools as [|t ts]; [done|]. cbn [forallb fst snd].
      destruct (Htools ltac:(done)) as (_ & -> & _). done.
    - destruct (model_cases _ Hm) as [-> | [-> | [-> | ->]]]; done. }
  unfold Skill.parseSkillMarkdown. rewrite Hf, Hp, (trimmed_trim _ Hb).
  unfold Skill.fields, as_map.
  cbn [Skill.name Skill.description Skill.tools Skill.model].
  destruct tools as [|t ts].
  - destruct (model_cases _ Hm) as [-> | [-> | [-> | ->]]]; decide_model; cbn [foldl app fst snd];
      lookups; by rewrite (or_else_truthy _ _ Hn), or_else_empty.
  - destruct (Htools ltac:(done)) as (_ & _ & Hparse).
    destruct (model_cases _ Hm) as [-> | [-> | [-> | ->]]]; decide_model; cbn [foldl app fst snd];
      lookups; by rewrite Hparse, (or_else_truthy _ _ Hn), or_else_empty.
Qed.

Lemma agent_document (d : Agent.Draft) :
  Agent.agentToMarkdown d = document (Agent.fields d) (Agent.content d).
Proof.
  destruct d as [n desc [|t ts] m body]; unfold Agent.agentToMarkdown, Agent.fields;
    cbn [Agent.tools Agent.model]; by destruct (String.eqb m "inherit").
Qed.

Lemma agent_round_trip (a : Agent.Agent) :
  Agent.valid a = true ->
  Agent.parseAgentMarkdown (Agent.agentToMarkdown (Agent.draft a))
                           (Agent.filePath a) = Some a.
Proof.
  destruct a as [[n desc tools m body] path]. unfold Agent.valid.
  cbn [Agent.draft Agent.filePath Agent.name Agent.description Agent.tools
       Agent.model Agent.content].
  intros [[[[[Hn Hcn]%andb_split Hd]%andb_split Ht]%andb_split Hm]%andb_split
            Hb]%andb_split.
  rewrite agent_document. cbn [Agent.content].
  assert (Htools : tools <> [] ->
            truthy (join ", " tools) = true /\ clean (join ", " tools) = true
            /\ parseTools (Some (join ", " tools)) = tools).
  { intros Hne. destruct (clean_tools _ Hne Ht). split; [done|]. split; [done|].
    by apply parseTools_join. }
  destruct (document_decodes
              (Agent.fields {| Agent.name := n; Agent.description := desc;
                               Agent.tools := tools; Agent.model := m;
                               Agent.content := body |}) body)
    as (frontmatter & Hf & Hp); [done| |].
  { unfold Agent.fields, fields_ok.
    cbn [Agent.name Agent.description Agent.tools Agent.model forallb fst snd app].
    rewrite Hcn, Hd. change (key_ok "name") with true.
    change (key_ok "description") with true. cbn [andb].
    rewrite forallb_app. apply andb_true_intro. split.
    - destruct tools as [|t ts]; [done|]. cbn [forallb fst snd].
      destruct (Htools ltac:(done)) as (_ & -> & _). done.
    - destruct (model_cases _ Hm) as [-> | [-> | [-> | ->]]]; done. }
  unfold Agent.parseAgentMarkdown. rewrite Hf, Hp, (trimmed_trim _ Hb).
  unfold Agent.fields, as_map.
  cbn [Agent.name Agent.description Agent.tools Agent.model].
  destruct tools as [|t ts].
  - destruct (model_cases _ Hm) as [-> | [-> | [-> | ->]]]; decide_model; cbn [foldl app fst snd];
      lookups; by rewrite (or_else_truthy _ _ Hn), or_else_empty.
  - destruct (Htools ltac:(done)) as (_ & _ & Hparse).
    destruct (model_cases _ Hm) as [-> | [-> | [-> | ->]]]; decide_model; cbn [foldl app fst snd];
      lookups; by rewrite Hparse, (or_else_truthy _ _ Hn), or_else_empty.
Qed.

(** The default model leaves no [model] key in the header. *)
Lemma inherit_key_omitted (k : Skill.Draft) (a : Agent.Draft) :
  Skill.model k = "inherit" -> Agent.model a = "inherit" ->
  as_map (Skill.fields k) !! "model" = None
  /\ as_map (Agent.fields a) !! "model" = None.
Proof.
  destruct k as [n1 d1 t1 m1 b1], a as [n2 d2 t2 m2 b2]. simpl. intros -> ->.
  unfold Skill.fields, Agent.fields, as_map.
  cbn [Skill.name Skill.description Skill.tools Skill.model
       Agent.name Agent.description Agent.tools Agent.model].
  decide_model. by destruct t1, t2; cbn [foldl app fst snd]; lookups.
Qed.




End CodecFacts.

(** * Further properties *)

(** ** Canonical names *)

Module CanonicalFacts.
Import Js Naming Canonical NamingFacts.

Lemma occurs_eq (pat s : string) :
  occurs pat s
  = match strip_prefix pat s with
    | Some _ => true
    | None => match s with "" => false | String _ s' => occurs pat s' end
    end.
Proof. by destruct s. Qed.

Lemma double_hyphen_cons (c : ascii) (s : string) :
  occurs "--" (String c s)
  = (is_hyphen c && startsWith s "-") || occurs "--" s.
Proof.
  rewrite occurs_eq. unfold startsWith, is_hyphen.
  change (strip_prefix "--" (String c s))
    with (if Ascii.eqb "-" c then strip_prefix "-" s else None).
  rewrite (Ascii.eqb_sym c "-").
  destruct (Ascii.eqb "-" c); [|done]. by destruct (strip_prefix "-" s).
Qed.

Lemma starts_hyphen_cons (c : ascii) (s : string) :
  startsWith (String c s) "-" = is_hyphen c.
Proof.
  unfold startsWith, is_hyphen. cbn [strip_prefix]. rewrite (Ascii.eqb_sym c "-").
  by destruct (Ascii.eqb "-" c).
Qed.

Lemma runs_shape (s : string) :
  startsWith (replace_hyphen_runs_from true s) "-" = false
  /\ forall b, occurs "--" (replace_hyphen_runs_from b s) = false.
Proof.
  induction s as [|c s [IHs IHo]]; [by split; [|intros []]|].
  cbn [replace_hyphen_runs_from]. destruct (is_hyphen c) eqn:Hc.
  - split; [done|]. intros [|]; [apply IHo|].
    rewrite double_hyphen_cons, IHs, IHo. by rewrite andb_false_r.
  - split; [by rewrite starts_hyphen_cons|]. intros b.
    destruct b; by rewrite double_hyphen_cons, Hc, IHo.
Qed.

Lemma runs_fixed (s : string) :
  occurs "--" s = false ->
  replace_hyphen_runs_from false s = s
  /\ (startsWith s "-" = false -> replace_hyphen_runs_from true s = s).
Proof.
  induction s as [|c s IH]; [done|]. rewrite double_hyphen_cons.
  intros [Hh Ho]%orb_false_elim. destruct (IH Ho) as [IHf IHt].
  cbn [replace_hyphen_runs_from]. rewrite starts_hyphen_cons.
  destruct (is_hyphen c) eqn:Hc.
  - simpl in Hh. apply is_hyphen_eq in Hc as ->. split; [|done].
    by rewrite (IHt Hh).
  - by rewrite IHf.
Qed.



Lemma skill_canonical (s : string) : canonical (normalizeSkillName s) = true.
Proof.
  unfold canonical, normalizeSkillName. rewrite rule_kebab.
  unfold replace_hyphen_runs. by rewrite (proj2 (runs_shape _) false).
Qed.

Lemma skill_fixed (s : string) : canonical s = true -> normalizeSkillName s = s.
Proof.
  unfold canonical, normalizeSkillName. intros [Hk Ho]%andb_prop.
  apply negb_true_iff in Ho.
  rewrite (all_kebab_lower _ Hk), (all_kebab_replace _ Hk).
  by apply runs_fixed.
Qed.


Lemma skill_empty (s : string) : normalizeSkillName s = "" <-> s = "".
Proof.
  split; [|by intros ->]. destruct s as [|c s]; [done|].
  unfold normalizeSkillName, replace_hyphen_runs, replace_non_kebab, toLowerCase.
  cbn [map replace_hyphen_runs_from]. by destruct (is_hyphen _).
Qed.

Lemma command_as_skill (s : string) :
  normalizeCommandName s
  = normalizeSkillName (if startsWith s "/" then slice1 s else s).
Proof. done. Qed.


(** X2.  The canonical names are exactly the names a normalization
    leaves as they are. *)
Theorem normalize_fixed_points (s : string) :
  (normalizeSkillName s = s <-> canonical s = true)
  /\ (normalizeAgentName s = s <-> canonical s = true)
  /\ (normalizeCommandName s = s <-> canonical s = true).
Proof.
  assert (Hs : normalizeSkillName s = s <-> canonical s = true).
  { split; [intros <-; apply skill_canonical | apply skill_fixed]. }
  split; [done|]. split; [exact Hs|]. split.
  - intros <-. rewrite command_as_skill. apply skill_canonical.
  - intros Hc. rewrite command_as_skill.
    assert (Hslash : startsWith s "/" = false).
    { apply all_kebab_no_slash. by apply andb_prop in Hc as [? _]. }
    rewrite Hslash. by apply skill_fixed.
Qed.

End CanonicalFacts.

(** ** The decoders *)

Module DecoderFacts.
Import Js Codec Stored StringFacts CodecFacts.

#[local] Arguments String.append !s1 s2 /.

Lemma strip_prefix_sound (p s r : string) : strip_prefix p s = Some r -> s = p +:+ r.
Proof.
  revert s. induction p as [|a p IH]; intros s; [by intros [= ->]|].
  destruct s as [|b s]; [done|]. cbn [strip_prefix].
  destruct (Ascii.eqb_spec a b) as [->|]; [|done].
  intros H. by rewrite (IH _ H).
Qed.

Lemma strip_prefix_app (p r : string) : strip_prefix p (p +:+ r) = Some r.
Proof.
  induction p as [|a p IH]; [done|]. cbn [strip_prefix String.append].
  by rewrite Ascii.eqb_refl.
Qed.

Lemma cut_at_sound (pat s a b : string) :
  cut_at pat s = Some (a, b) -> s = a +:+ pat +:+ b.
Proof.
  revert a. induction s as [|c s IH]; intros a; rewrite cut_at_eq.
  - destruct (strip_prefix pat "") eqn:E; [|done].
    intros [= <- <-]. change ("" +:+ ?x) with x. by apply strip_prefix_sound.
  - destruct (strip_prefix pat (String c s)) eqn:E.
    + intros [= <- <-]. change ("" +:+ ?x) with x. by apply strip_prefix_sound.
    + destruct (cut_at pat s) as [[a' b']|]; [|done].
      intros [= <- <-]. by rewrite (IH a' eq_refl).
Qed.

Lemma cut_at_found (pat a b : string) :
  exists x y, cut_at pat (a +:+ pat +:+ b) = Some (x, y)
              /\ String.length x <= String.length a.
Proof.
  induction a as [|c a (x & y & IH & Hl)]; rewrite cut_at_eq.
  - cbn [String.append]. rewrite strip_prefix_app. exists "", b. done.
  - destruct (strip_prefix pat _); [exists "", s; split; [done|simpl; lia]|].
    cbn [String.append]. rewrite IH. exists (String c x), y. split; [done|].
    simpl. lia.
Qed.

(** X3.  The header block is found exactly in the texts that open with
    the delimiter line and hold a closing delimiter line; the front
    matter is what precedes the first closing delimiter, so no split of
    the text gives a shorter one. *)
Theorem frontmatter_shape (text : string) :
  (forall frontmatter body,
      frontmatterMatch text = Some (frontmatter, body) ->
      text = "---" +:+ nl +:+ frontmatter +:+ closing +:+ body
      /\ forall frontmatter' body',
           text = "---" +:+ nl +:+ frontmatter' +:+ closing +:+ body' ->
           String.length frontmatter <= String.length frontmatter')
  /\ (frontmatterMatch text = None <->
      forall frontmatter body,
        text <> "---" +:+ nl +:+ frontmatter +:+ closing +:+ body).
Proof.
  unfold frontmatterMatch. fold closing. split.
  - intros frontmatter body H.
    destruct (strip_prefix ("---" +:+ nl) text) as [rest|] eqn:E; [|done].
    apply strip_prefix_sound in E. apply cut_at_sound in H as Hr.
    rewrite StringFacts.app_assoc in E.
    split; [by rewrite E, Hr|]. intros f' b' Ht. rewrite Ht in E.
    do 2 apply String.app_inj in E. subst rest.
    destruct (cut_at_found closing f' b') as (x & y & Hx & Hl).
    rewrite Hx in H. by injection H as -> _.
  - split.
    + intros H f b ->. rewrite <- StringFacts.app_assoc, strip_prefix_app in H.
      destruct (cut_at_found closing f b) as (x & y & Hx & _). by rewrite Hx in H.
    + intros H. destruct (strip_prefix ("---" +:+ nl) text) as [rest|] eqn:E; [|done].
      destruct (cut_at closing rest) as [[a b]|] eqn:Ec; [|done].
      apply strip_prefix_sound in E. apply cut_at_sound in Ec.
      destruct (H a b). by rewrite E, Ec, StringFacts.app_assoc.
Qed.

Lemma lines_then_join (lines : list string) (rest : string) :
  lines <> [] -> lines_then lines rest = join nl lines +:+ nl +:+ rest.
Proof.
  induction lines as [|l ls IH]; [done|]. intros _. destruct ls as [|l2 ls]; [done|].
  rewrite join_cons, !StringFacts.app_assoc.
  cbn [lines_then] in *. by rewrite IH.
Qed.

Lemma document_text (fields : list (string * string)) (content : string) :
  fields <> [] ->
  document fields content
  = "---" +:+ nl +:+ join nl (List.map headerLine fields) +:+ closing +:+ content.
Proof.
  intros Hne. unfold document.
  destruct (List.map headerLine fields) as [|l ls] eqn:E; [by destruct fields|].
  change ("---" :: (l :: ls) ++ ["---"; ""]) with ("---" :: l :: (ls ++ ["---"; ""])).
  rewrite join_cons, !StringFacts.app_assoc.
  change (l :: ls ++ ["---"; ""]) with ((l :: ls) ++ ["---"; ""]).
  by rewrite join_then, lines_then_join.
Qed.

Lemma frontmatter_found (frontmatter body : string) :
  is_Some (frontmatterMatch ("---" +:+ nl +:+ frontmatter +:+ closing +:+ body)).
Proof.
  unfold frontmatterMatch. fold closing.
  rewrite <- StringFacts.app_assoc, strip_prefix_app.
  destruct (cut_at_found closing frontmatter body) as (x & y & -> & _). by eauto.
Qed.

Lemma document_matches (fields : list (string * string)) (content : string) :
  fields <> [] -> is_Some (frontmatterMatch (document fields content)).
Proof. intros Hne. rewrite (document_text _ _ Hne). apply frontmatter_found. Qed.

Lemma command_decodes (d : Command.Draft) (sourcePath : string) :
  exists c, Command.parseCommandMarkdown (Command.commandToMarkdown d) sourcePath = Some c
            /\ Command.filePath c = sourcePath
            /\ Command.name (Command.draft c) = fileStem sourcePath.
Proof.
  rewrite command_document. unfold Command.parseCommandMarkdown.
  destruct (document_matches (Command.fields d) (Command.content d) ltac:(done))
    as [[f b] ->].
  by eauto.
Qed.

Lemma skill_decodes (d : Skill.Draft) (sourcePath : string) :
  exists k, Skill.parseSkillMarkdown (Skill.skillToMarkdown d) sourcePath = Some k
            /\ Skill.filePath k = sourcePath.
Proof.
  rewrite skill_document. unfold Skill.parseSkillMarkdown.
  destruct (document_matches (Skill.fields d) (Skill.content d) ltac:(done))
    as [[f b] ->].
  by eauto.
Qed.

Lemma agent_decodes (d : Agent.Draft) (sourcePath : string) :
  exists a, Agent.parseAgentMarkdown (Agent.agentToMarkdown d) sourcePath = Some a
            /\ Agent.filePath a = sourcePath.
Proof.
  rewrite agent_document. unfold Agent.parseAgentMarkdown.
  destruct (document_matches (Agent.fields d) (Agent.content d) ltac:(done))
    as [[f b] ->].
  by eauto.
Qed.

(** X4.  Whatever a record holds, the text its encoder writes is
    accepted by the decoder of its kind, at any location. *)
Theorem encoded_always_decodes (a : Artifact.Artifact) (sourcePath : string) :
  is_Some (Artifact.decode (Artifact.kind a) (Artifact.encode a) sourcePath).
Proof.
  destruct a as [c|k|g]; cbn [Artifact.decode Artifact.kind Artifact.encode].
  - destruct (command_decodes (Command.draft c) sourcePath) as (x & -> & _). by eauto.
  - destruct (skill_decodes (Skill.draft k) sourcePath) as (x & -> & _). by eauto.
  - destruct (agent_decodes (Agent.draft g) sourcePath) as (x & -> & _). by eauto.
Qed.

(** *** What the header yields *)

Lemma all_trimStart (p : ascii -> bool) (s : string) :
  all p s = true -> all p (trimStart s) = true.
Proof.
  induction s as [|c s IH]; [done|]. cbn [trimStart all].
  intros [Hc Hs]%andb_split. destruct (is_ws c); [by apply IH|].
  cbn [all]. by rewrite Hc, Hs.
Qed.

Lemma all_trimEnd (p : ascii -> bool) (s : string) :
  all p s = true -> all p (trimEnd s) = true.
Proof.
  induction s as [|c s IH]; [done|]. rewrite trimEnd_cons. cbn [all].
  intros [Hc Hs]%andb_split. specialize (IH Hs).
  destruct (trimEnd s); [destruct (is_ws c)|]; cbn [all] in *; by rewrite ?Hc, ?IH.
Qed.

Lemma all_trim (p : ascii -> bool) (s : string) :
  all p s = true -> all p (trim s) = true.
Proof. intros H. by apply all_trimEnd, all_trimStart. Qed.

Lemma trimmed_trim_of (s : string) : trimmed (trim s) = true.
Proof. unfold trimmed. by destruct (trim_clean s) as [-> ->]. Qed.

Lemma span_all (p : ascii -> bool) (s : string) : all p (span p s).1 = true.
Proof.
  induction s as [|c s IH]; [done|]. cbn [span].
  destruct (p c) eqn:Hc; [|done]. destruct (span p s) as [a b].
  cbn [fst all] in *. by rewrite Hc, IH.
Qed.

Lemma lineMatch_parts (line k v : string) :
  lineMatch line = Some (k, v) ->
  all (not_char ":") k = true /\ all (fun c => negb (is_line_terminator c)) v = true.
Proof.
  unfold lineMatch.
  pose proof (span_all (fun c => negb (Ascii.eqb c ":")) line) as Hk.
  destruct (span _ line) as [[|k0 ks] [|c rest]]; try done.
  destruct (all _ (trimStart rest)) eqn:Hv; [|done].
  by intros [= <- <-].
Qed.

Lemma metadata_stored (frontmatter : string) :
  map_Forall stored (parseMetadata frontmatter).
Proof.
  unfold parseMetadata. generalize (split LF frontmatter). intros lines.
  assert (H0 : map_Forall stored (∅ : gmap string string)) by apply map_Forall_empty.
  revert H0. generalize (∅ : gmap string string).
  induction lines as [|line lines IH]; intros m Hm; [done|].
  cbn [foldl]. apply IH.
  destruct (lineMatch line) as [[k v]|] eqn:E; [|done].
  destruct (lineMatch_parts _ _ _ E) as [Hk Hv].
  apply map_Forall_insert_2; [|done]. unfold stored, clean.
  by rewrite !trimmed_trim_of, !all_trim.
Qed.

Lemma split_pieces (sep : ascii) (s : string) :
  Forall (fun piece => all (not_char sep) piece = true) (split sep s).
Proof.
  induction s as [|c s IH]; [by repeat constructor|]. cbn [split].
  destruct (split sep s) as [|w ws]; [by repeat constructor|].
  apply Forall_cons in IH as [Hw Hws].
  destruct (Ascii.eqb c sep) eqn:Hc.
  - by repeat constructor.
  - constructor; [|done]. cbn [all]. unfold not_char in *. by rewrite Hc, Hw.
Qed.

Lemma parseTools_shape (tools : option string) :
  Forall (fun t => trimmed t = true /\ all (not_char ",") t = true) (parseTools tools).
Proof.
  unfold parseTools. destruct tools as [t|]; [|constructor].
  destruct (truthy t); [|constructor].
  apply Forall_map. eapply Forall_impl; [apply split_pieces|].
  intros piece Hp. cbn beta. by rewrite trimmed_trim_of, all_trim.
Qed.

Lemma or_else_clean (v : option string) :
  (forall s, v = Some s -> clean s = true) -> clean (or_else v "") = true.
Proof.
  intros H. destruct v as [s|]; [|done]. simpl. specialize (H s eq_refl).
  by destruct (truthy s).
Qed.

Lemma or_else_truthy_default (v : option string) (d : string) :
  truthy d = true -> truthy (or_else v d) = true.
Proof. intros Hd. destruct v as [s|]; [|done]. simpl. by destruct (truthy s) eqn:E. Qed.

(** X5.  Whatever the text, a decoded description and argument hint
    are single lines without white space at either end, every decoded
    tool is trimmed and holds no comma, and the decoded model is not
    empty. *)
Theorem decoded_header_values (text sourcePath : string) :
  (forall c, Command.parseCommandMarkdown text sourcePath = Some c ->
             clean (Command.description (Command.draft c)) = true
             /\ forall h, Command.argumentHint (Command.draft c) = Some h ->
                          clean h = true)
  /\ (forall k, Skill.parseSkillMarkdown text sourcePath = Some k ->
                clean (Skill.description (Skill.draft k)) = true
                /\ Forall (fun t => trimmed t = true /\ all (not_char ",") t = true)
                          (Skill.tools (Skill.draft k))
                /\ truthy (Skill.model (Skill.draft k)) = true)
  /\ (forall a, Agent.parseAgentMarkdown text sourcePath = Some a ->
                clean (Agent.description (Agent.draft a)) = true
                /\ Forall (fun t => trimmed t = true /\ all (not_char ",") t = true)
                          (Agent.tools (Agent.draft a))
                /\ truthy (Agent.model (Agent.draft a)) = true).
Proof.
  unfold Command.parseCommandMarkdown, Skill.parseSkillMarkdown,
    Agent.parseAgentMarkdown.
  destruct (frontmatterMatch text) as [[frontmatter body]|]; [|by repeat split].
  pose proof (metadata_stored frontmatter) as Hm.
  assert (Hv : forall key s, parseMetadata frontmatter !! key = Some s -> clean s = true).
  { intros key s Hs. by destruct (Hm _ _ Hs) as (_ & _ & ?). }
  split; [|split]; intros x [= <-]; cbn.
  - split; [apply or_else_clean; eauto | eauto].
  - split; [apply or_else_clean; eauto|]. split; [apply parseTools_shape|].
    by apply or_else_truthy_default.
  - split; [apply or_else_clean; eauto|]. split; [apply parseTools_shape|].
    by apply or_else_truthy_default.
Qed.



End DecoderFacts.

(** ** Factories, merged permissions and server maps *)

Module ModelFacts.
Import Js Naming Codec Canonical CanonicalFacts NamingFacts StringFacts CodecFacts.
Import ClaudeConfig MergeFacts.

#[local] Arguments String.append !s1 s2 /.

(** *** Normalized names as file names *)

Lemma kebab_plain (c : ascii) :
  kebab_char c = true ->
  is_ws c = false /\ is_line_terminator c = false
  /\ not_char "/" c = true /\ not_char "." c = true /\ not_char "," c = true
  /\ not_char ":" c = true.
Proof. each_char c; by repeat split. Qed.

Lemma kebab_starts (s : string) : all kebab_char s = true -> starts_with_ws s = false.
Proof.
  destruct s as [|c s]; [done|]. cbn [all starts_with_ws].
  intros [Hc _]%andb_split. by destruct (kebab_plain c Hc).
Qed.

Lemma kebab_ends (s : string) : all kebab_char s = true -> ends_with_ws s = false.
Proof.
  induction s as [|c s IH]; [done|]. cbn [all]. intros [Hc Hs]%andb_split.
  destruct s as [|d s]; [simpl; by destruct (kebab_plain c Hc)|].
  by apply IH.
Qed.

Lemma kebab_clean (s : string) : all kebab_char s = true -> clean s = true.
Proof.
  intros Hk. unfold clean, trimmed. rewrite (kebab_starts _ Hk), (kebab_ends _ Hk).
  cbn [negb andb]. revert Hk. apply all_weaken. intros c Hc.
  by destruct (kebab_plain c Hc) as (_ & -> & _).
Qed.

Lemma occurs_without (pat : string) (c : ascii) (s : string) :
  all (not_char c) s = true -> startsWith pat (String c "") = true ->
  occurs pat s = false.
Proof.
  destruct pat as [|p pat]; [done|]. unfold startsWith. cbn [strip_prefix].
  destruct (Ascii.eqb_spec c p) as [<-|]; [|done]. intros Hs _.
  induction s as [|d s IH]; [done|]. cbn [all] in Hs.
  apply andb_split in Hs as [Hd Hs]. cbn [occurs strip_prefix].
  unfold not_char in Hd. rewrite Ascii.eqb_sym in Hd.
  destruct (Ascii.eqb c d); [done|]. by apply IH.
Qed.

Lemma canonical_parts (n : string) :
  canonical n = true ->
  clean n = true /\ all (not_char "/") n = true /\ occurs ".md" n = false.
Proof.
  unfold canonical. intros [Hk _]%andb_split. split; [by apply kebab_clean|].
  split.
  - revert Hk. apply all_weaken. intros c Hc. by destruct (kebab_plain c Hc) as (_ & _ & -> & _).
  - apply (occurs_without ".md" "."); [|done].
    revert Hk. apply all_weaken. intros c Hc.
    by destruct (kebab_plain c Hc) as (_ & _ & _ & -> & _).
Qed.

(** X7.  A canonical name is a safe file name: the file [n.md] yields
    the name [n] again, and so does the directory [n] of a skill. *)
Theorem canonical_name_is_file_stem (dir n file : string) :
  canonical n = true ->
  all (not_char "/") file = true ->
  fileStem (dir +:+ "/" +:+ n +:+ ".md") = n
  /\ containingDir (dir +:+ "/" +:+ n +:+ "/" +:+ file) = Some n.
Proof.
  intros (_ & Hs & Ho)%canonical_parts Hf. split.
  - by apply fileStem_md.
  - by apply containingDir_of.
Qed.

Lemma canonical_name_is_file_stem_witness :
  fileStem ("/p/.claude/commands" +:+ "/" +:+ "run-tests" +:+ ".md") = "run-tests"
  /\ containingDir ("/p/.claude/skills" +:+ "/" +:+ "run-tests" +:+ "/" +:+ "SKILL.md")
     = Some "run-tests".
Proof.
  split.
  - apply (canonical_name_is_file_stem "/p/.claude/commands" "run-tests" "SKILL.md");
      reflexivity.
  - apply (canonical_name_is_file_stem "/p/.claude/skills" "run-tests" "SKILL.md");
      reflexivity.
Defined.

(** X8.  The record a model factory builds comes back from the codec as
    it is, also under a name that had to be normalized: for a command
    at the file its name addresses, for a skill or agent (given a
    non-empty name) at any location. *)
Theorem factory_round_trip (name description content dir sourcePath : string)
    (argumentHint : option string) (tools : option (list string))
    (model : option string) :
  clean description = true ->
  trimmed content = true ->
  match argumentHint with Some h => truthy h && clean h | None => true end = true ->
  forallb tool_ok (default [] tools) = true ->
  model_ok (default "inherit" model) = true ->
  let c := Factory.createCommand name description content argumentHint in
  let k := Factory.createSkill name description content tools model in
  let a := Factory.createAgent name description content tools model in
  let file := dir +:+ "/" +:+ Command.name c +:+ ".md" in
  Command.parseCommandMarkdown (Command.commandToMarkdown c) file
  = Some {| Command.draft := c; Command.filePath := file |}
  /\ (name <> "" ->
      Skill.parseSkillMarkdown (Skill.skillToMarkdown k) sourcePath
      = Some {| Skill.draft := k; Skill.filePath := sourcePath |}
      /\ Agent.parseAgentMarkdown (Agent.agentToMarkdown a) sourcePath
         = Some {| Agent.draft := a; Agent.filePath := sourcePath |}).
Proof.
  intros Hd Hc Hh Ht Hm c k a file. split.
  - apply (command_round_trip {| Command.draft := c; Command.filePath := file |}).
    unfold Command.valid. cbn. rewrite Hd, Hc, Hh, !andb_true_r.
    apply String.eqb_eq. unfold file. cbn.
    destruct (canonical_parts (normalizeCommandName name)) as (_ & Hs & Ho).
    { rewrite command_as_skill. apply skill_canonical. }
    by apply fileStem_md.
  - intros Hne.
    assert (Hn : truthy (normalizeSkillName name) = true
                 /\ clean (normalizeSkillName name) = true).
    { split.
      - destruct (normalizeSkillName name) eqn:E; [|done].
        exfalso. apply Hne. by apply (proj1 (skill_empty name)).
      - by destruct (canonical_parts _ (skill_canonical name)). }
    destruct Hn as [Hn1 Hn2]. split.
    + apply (skill_round_trip {| Skill.draft := k; Skill.filePath := sourcePath |}).
      unfold Skill.valid. cbn. by rewrite Hn1, Hn2, Hd, Ht, Hm, Hc.
    + apply (agent_round_trip {| Agent.draft := a; Agent.filePath := sourcePath |}).
      unfold Agent.valid. cbn. unfold normalizeAgentName.
      fold (normalizeSkillName name). by rewrite Hn1, Hn2, Hd, Ht, Hm, Hc.
Qed.

Lemma factory_round_trip_witness :
  let c := Factory.createCommand "/Run Tests" "Run the tests" "Run them."
             (Some "[pattern]") in
  Command.name c = "run-tests"
  /\ Command.parseCommandMarkdown (Command.commandToMarkdown c)
       "/p/.claude/commands/run-tests.md"
     = Some {| Command.draft := c; Command.filePath := "/p/.claude/commands/run-tests.md" |}.
Proof.
  intros c. split; [reflexivity|].
  exact (proj1 (factory_round_trip "/Run Tests" "Run the tests" "Run them."
                  "/p/.claude/commands" "" (Some "[pattern]") (Some ["Bash"]) None
                  eq_refl eq_refl eq_refl eq_refl eq_refl)).
Defined.

(** *** Merged permissions *)

Lemma fresh_entries_seen_all (seen items : list string) :
  (forall x, x ∈ items -> x ∈ seen) -> fresh_entries seen items = [].
Proof.
  induction items as [|x items IH]; [done|]. intros H. simpl.
  rewrite bool_decide_eq_true_2 by (apply H; left). apply IH.
  intros y Hy. apply H. by right.
Qed.

Lemma fresh_entries_NoDup_id (seen items : list string) :
  NoDup items -> (forall x, x ∈ items -> x ∉ seen) -> fresh_entries seen items = items.
Proof.
  intros Hnd. revert seen. induction Hnd as [|x items Hx Hnd IH]; intros seen H; [done|].
  simpl. rewrite bool_decide_eq_false_2 by (apply H; left). f_equal.
  apply IH. intros y Hy. rewrite not_elem_of_cons. split; [by intros ->|].
  apply H. by right.
Qed.

Lemma set_spread_NoDup (items : list string) : NoDup items -> set_spread items = items.
Proof.
  intros H. unfold set_spread. rewrite foldl_set_add. simpl.
  apply fresh_entries_NoDup_id; [done|]. intros x _. apply not_elem_of_nil.
Qed.

Lemma set_spread_again (global project : list string) :
  set_spread (set_spread (global ++ project) ++ project) = set_spread (global ++ project).
Proof.
  destruct (set_spread_union global project) as (_ & Hnd & Hel).
  unfold set_spread at 1. rewrite foldl_app. fold (set_spread (set_spread (global ++ project))).
  rewrite (set_spread_NoDup _ Hnd), foldl_set_add.
  rewrite fresh_entries_seen_all; [by rewrite List.app_nil_r|].
  intros x Hx. apply Hel. by right.
Qed.

(** X9.  Merging is idempotent - merging the same project permissions
    into a merged result changes nothing - and merging nothing into
    permissions without repeated patterns gives them back. *)
Theorem mergePermissions_idempotent (base : Permissions) (override : PartialPermissions) :
  mergePermissions (mergePermissions base override) override
  = mergePermissions base override
  /\ (NoDup (allow base) -> NoDup (deny base) -> NoDup (ask base) ->
      mergePermissions base {| allow_opt := None; deny_opt := None; ask_opt := None |}
      = base).
Proof.
  split.
  - unfold mergePermissions. cbn [allow deny ask]. by rewrite !set_spread_again.
  - intros Ha Hd Hk. destruct base as [a d k]. unfold mergePermissions.
    cbn in *. by rewrite !List.app_nil_r, !set_spread_NoDup.
Qed.

(** *** MCP servers *)



End ModelFacts.

(** ** Settings and [CLAUDE.md] in the store *)

Module SettingsFacts.
Import Js ClaudeConfig Fs Service Observe StoreFacts.

#[local] Arguments String.append !s1 s2 /.

(** *** The file system under [saveSettings] *)

Lemma string_length_app (a b : string) :
  String.length (a +:+ b) = String.length a + String.length b.
Proof. induction a as [|c a IH]; [done|]. simpl. by rewrite IH. Qed.

















(** X13.  Without a workspace - neither a project path nor a base
    path - every mutating call and every getter throws 'No workspace
    folder open' and leaves the store as it is; [hasClaudeConfig] answers
    [false]. *)
Theorem no_workspace (this : Service) (projectPath : option string) (s : Store) :
  truthy (resolveBase this projectPath) = false ->
  (forall mutation, perform this mutation projectPath s = (Throw NoWorkspace, s))
  /\ (forall eventFilter, getHooks this eventFilter projectPath s = (Throw NoWorkspace, s))
  /\ getPermissions this projectPath s = (Throw NoWorkspace, s)
  /\ getCommands this projectPath s = (Throw NoWorkspace, s)
  /\ getSkills this projectPath s = (Throw NoWorkspace, s)
  /\ getAgents this projectPath s = (Throw NoWorkspace, s)
  /\ getMcpServers this projectPath s = (Throw NoWorkspace, s)
  /\ getClaudeMd this projectPath s = (Throw NoWorkspace, s)
  /\ hasClaudeConfig this projectPath s = (Ok false, s).
Proof.
  intros Hb. pose proof (getConfig_throws this projectPath s Hb) as Hc.
  assert (Hcmd : getCommands this projectPath s = (Throw NoWorkspace, s))
    by (unfold getCommands, bind; by rewrite Hc).
  assert (Hsk : getSkills this projectPath s = (Throw NoWorkspace, s))
    by (unfold getSkills, bind; by rewrite Hc).
  assert (Hag : getAgents this projectPath s = (Throw NoWorkspace, s))
    by (unfold getAgents, bind; by rewrite Hc).
  split; [|repeat split; try done].
  - intros []; unfold perform, discard, saveSettings, addHook, deleteHook, setPermissions,
      addPermission, removePermission, createCommand, updateCommand, deleteCommand,
      createSkill, deleteSkill, createAgent, deleteAgent, addMcpServer, removeMcpServer,
      saveClaudeMd, initializeClaudeConfig, bind;
      rewrite ?Hb, ?Hc, ?Hcmd, ?Hsk, ?Hag; done.
  - intros eventFilter. unfold getHooks, bind. by rewrite Hc.
  - unfold getPermissions, bind. by rewrite Hc.
  - unfold getMcpServers, bind. by rewrite Hc.
  - unfold getClaudeMd, bind. by rewrite Hc.
  - unfold hasClaudeConfig. by rewrite Hb.
Qed.

Lemma no_workspace_witness :
  perform Examples.detached (DoSaveClaudeMd "# Notes") None Samples.empty_store
  = (Throw NoWorkspace, Samples.empty_store)
  /\ hasClaudeConfig Examples.detached None Samples.empty_store
     = (Ok false, Samples.empty_store).
Proof.
  destruct (no_workspace Examples.detached None Samples.empty_store eq_refl)
    as (Hm & _ & _ & _ & _ & _ & _ & _ & Hhas).
  exact (conj (Hm (DoSaveClaudeMd "# Notes")) Hhas).
Defined.

End SettingsFacts.

(** ** Permissions *)

Module PermissionFacts.
Import Js ClaudeConfig Fs Service Observe StoreFacts SettingsFacts.














End PermissionFacts.

(** ** MCP servers *)

Module McpFacts.
Import Js ClaudeConfig Fs Service Observe StoreFacts SettingsFacts.












End McpFacts.

(** ** Hooks *)

Module HookFacts.
Import Js ClaudeConfig Fs Service Observe StoreFacts SettingsFacts.











(** *** Deleting *)







(** *** Adding, then deleting *)









End HookFacts.

(** ** Listings *)

Module ListingFacts.
Import Js Codec ClaudeConfig Fs Service Observe StringFacts StoreFacts SettingsFacts.
Import DecoderFacts.

#[local] Arguments String.append !s1 s2 /.

Lemma path_join_both (a b : string) :
  truthy a = true -> truthy b = true -> path_join a b = a +:+ "/" +:+ b.
Proof. by destruct a, b. Qed.

Lemma entry_name_spec (dir k name : string) :
  entry_name dir k = Some name
  <-> k = dir +:+ "/" +:+ name /\ truthy name = true /\ all (not_char "/") name = true.
Proof.
  unfold entry_name. split.
  - destruct (strip_prefix _ k) as [n|] eqn:E; [|done].
    apply strip_prefix_sound in E. rewrite StringFacts.app_assoc in E.
    destruct (truthy n) eqn:Ht; [|done]. cbn [andb].
    destruct (all _ n) eqn:Ha; [|done]. by intros [= <-].
  - intros (-> & Ht & Ha). rewrite <- StringFacts.app_assoc, strip_prefix_app, Ht.
    cbn [andb]. unfold not_char in Ha. by rewrite Ha.
Qed.

Lemma readdir_spec (fs : Fs.t) (dir : string) :
  fs !! dir = Some Dir ->
  exists entries,
    readdirSync fs dir = Some entries
    /\ forall name n,
         (name, n) ∈ entries
         <-> truthy name = true /\ all (not_char "/") name = true
             /\ fs !! (dir +:+ "/" +:+ name) = Some n.
Proof.
  intros Hd. unfold readdirSync. rewrite Hd. eexists. split; [done|].
  intros name n. rewrite list_elem_of_omap. split.
  - intros ([k n'] & Hin & Hf). apply elem_of_map_to_list in Hin.
    destruct (entry_name dir k) as [name'|] eqn:E; [|done].
    cbn [fmap option_fmap option_map] in Hf. injection Hf as -> ->.
    apply entry_name_spec in E as (-> & Ht & Ha). done.
  - intros (Ht & Ha & Hl). exists (dir +:+ "/" +:+ name, n).
    split; [by apply elem_of_map_to_list|].
    by rewrite (proj2 (entry_name_spec dir _ name)).
Qed.

Lemma loadFlat_spec {A} (parse : string -> string -> option A) (fs : Fs.t)
    (dir : string) (entries : list (string * node)) (x : A) :
  truthy dir = true ->
  (forall name n, (name, n) ∈ entries -> truthy name = true) ->
  x ∈ loadFlat parse fs dir entries
  <-> exists file n text,
        (file, n) ∈ entries /\ endsWith file ".md" = true
        /\ fs !! (dir +:+ "/" +:+ file) = Some (File (Text text))
        /\ parse text (dir +:+ "/" +:+ file) = Some x.
Proof.
  intros Hd Hnames. unfold loadFlat. rewrite list_elem_of_omap. split.
  - intros ([file n] & Hin & Hx). destruct (endsWith file ".md") eqn:He; [|done].
    rewrite (path_join_both _ _ Hd (Hnames _ _ Hin)) in Hx. unfold readFileSync in Hx.
    destruct (fs !! _) as [[|[text|doc]]|] eqn:Hl; try done.
    exists file, n, text. done.
  - intros (file & n & text & Hin & He & Hl & Hx). exists (file, n). split; [done|].
    rewrite He, (path_join_both _ _ Hd (Hnames _ _ Hin)). unfold readFileSync.
    by rewrite Hl.
Qed.

(** The flat listings: nothing without the directory, an error on what
    is not a directory, and otherwise the records of the decodable [.md]
    files directly inside it. *)
Lemma listFlat_spec {A} (parse : string -> string -> option A) (dir : string)
    (s : Store) :
  truthy dir = true ->
  match fs s !! dir with
  | None => listFlat parse dir s = (Ok [], s)
  | Some (File _) => listFlat parse dir s = (Throw IOError, s)
  | Some Dir =>
      exists l, listFlat parse dir s = (Ok l, s)
                /\ forall x, x ∈ l
                     <-> exists file text,
                           flatEntry (fs s) dir file text
                           /\ parse text (dir +:+ "/" +:+ file) = Some x
  end.
Proof.
  intros Hd. unfold listFlat. run. unfold existsSync.
  destruct (fs s !! dir) as [[|data]|] eqn:Hl.
  - rewrite bool_decide_eq_true_2 by eauto.
    destruct (readdir_spec _ _ Hl) as (entries & -> & Hentries).
    eexists. split; [done|]. intros x. rewrite loadFlat_spec; [|done|].
    + unfold flatEntry. split.
      * intros (file & n & text & Hin & He & Hf & Hx).
        apply Hentries in Hin as (Ht & Ha & _). by exists file, text.
      * intros (file & text & (Ht & Ha & He & Hf) & Hx).
        exists file, (File (Text text)), text. split; [by apply Hentries | done].
    + intros name n Hin. by apply Hentries in Hin as (Ht & _).
  - rewrite bool_decide_eq_true_2 by eauto. unfold readdirSync. by rewrite Hl.
  - rewrite bool_decide_eq_false_2; [done|]. by intros [? ?].
Qed.

Lemma commands_dir (this : Service) (projectPath : option string) (s : Store) :
  commandsDir (load (fs s) (resolveBase this projectPath))
  = resolveBase this projectPath +:+ "/.claude" +:+ "/commands".
Proof. unfold load. cbn [commandsDir createDefaultConfig]. by rewrite StringFacts.app_assoc. Qed.

Lemma agents_dir (this : Service) (projectPath : option string) (s : Store) :
  agentsDir (load (fs s) (resolveBase this projectPath))
  = resolveBase this projectPath +:+ "/.claude" +:+ "/agents".
Proof. unfold load. cbn [agentsDir createDefaultConfig]. by rewrite StringFacts.app_assoc. Qed.

Lemma skills_dir (this : Service) (projectPath : option string) (s : Store) :
  skillsDir (load (fs s) (resolveBase this projectPath))
  = resolveBase this projectPath +:+ "/.claude" +:+ "/skills".
Proof. unfold load. cbn [skillsDir createDefaultConfig]. by rewrite StringFacts.app_assoc. Qed.

Lemma truthy_app (a b : string) : truthy b = true -> truthy (a +:+ b) = true.
Proof. destruct a; [done|]. by intros _. Qed.

Lemma flat_spec (this : Service) (projectPath : option string) (s : Store) :
  truthy (resolveBase this projectPath) = true ->
  let config := createDefaultConfig (resolveBase this projectPath) in
  match fs s !! commandsDir config with
  | None => getCommands this projectPath s = (Ok [], s)
  | Some (File _) => getCommands this projectPath s = (Throw IOError, s)
  | Some Dir =>
      exists l, getCommands this projectPath s = (Ok l, s)
                /\ forall c, c ∈ l
                     <-> exists file text,
                           flatEntry (fs s) (commandsDir config) file text
                           /\ Command.parseCommandMarkdown text
                                (commandsDir config +:+ "/" +:+ file) = Some c
  end
  /\ match fs s !! agentsDir config with
     | None => getAgents this projectPath s = (Ok [], s)
     | Some (File _) => getAgents this projectPath s = (Throw IOError, s)
     | Some Dir =>
         exists l, getAgents this projectPath s = (Ok l, s)
                   /\ forall a, a ∈ l
                        <-> exists file text,
                              flatEntry (fs s) (agentsDir config) file text
                              /\ Agent.parseAgentMarkdown text
                                   (agentsDir config +:+ "/" +:+ file) = Some a
     end.
Proof.
  intros Hb config. split.
  - unfold getCommands, bind. rewrite (getConfig_ok _ _ _ Hb).
    apply (listFlat_spec Command.parseCommandMarkdown (commandsDir config) s).
    by apply truthy_app.
  - unfold getAgents, bind. rewrite (getConfig_ok _ _ _ Hb).
    apply (listFlat_spec Agent.parseAgentMarkdown (agentsDir config) s).
    by apply truthy_app.
Qed.

Lemma loadSkills_spec (fs : Fs.t) (dir : string) (entries : list (string * node))
    (x : Skill.Skill) :
  truthy dir = true ->
  (forall name n, (name, n) ∈ entries -> truthy name = true) ->
  x ∈ loadSkills fs dir entries
  <-> exists dirName text,
        (dirName, Dir) ∈ entries
        /\ fs !! (dir +:+ "/" +:+ dirName +:+ "/SKILL.md") = Some (File (Text text))
        /\ Skill.parseSkillMarkdown text (dir +:+ "/" +:+ dirName +:+ "/SKILL.md") = Some x.
Proof.
  intros Hd Hnames. unfold loadSkills. rewrite list_elem_of_omap.
  assert (Hp : forall dirName n, (dirName, n) ∈ entries ->
                 path_join (path_join dir dirName) "SKILL.md"
                 = dir +:+ "/" +:+ dirName +:+ "/SKILL.md").
  { intros dirName n Hin. rewrite (path_join_both _ _ Hd (Hnames _ _ Hin)).
    rewrite path_join_both; [|by apply truthy_app, truthy_app; apply (Hnames _ _ Hin)|done].
    by rewrite !StringFacts.app_assoc. }
  split.
  - intros ([dirName [|data]] & Hin & Hx); [|done]. rewrite (Hp _ _ Hin) in Hx.
    destruct (existsSync fs _); [|done]. unfold readFileSync in Hx.
    destruct (fs !! _) as [[|[text|doc]]|] eqn:Hl; try done.
    by exists dirName, text.
  - intros (dirName & text & Hin & Hl & Hx). exists (dirName, Dir). split; [done|].
    rewrite (Hp _ _ Hin). unfold existsSync, readFileSync. rewrite Hl.
    by rewrite bool_decide_eq_true_2 by eauto.
Qed.

Lemma getSkills_spec (this : Service) (projectPath : option string) (s : Store) :
  truthy (resolveBase this projectPath) = true ->
  let dir := skillsDir (createDefaultConfig (resolveBase this projectPath)) in
  match fs s !! dir with
  | None => getSkills this projectPath s = (Ok [], s)
  | Some (File _) => getSkills this projectPath s = (Throw IOError, s)
  | Some Dir =>
      exists l, getSkills this projectPath s = (Ok l, s)
                /\ forall k, k ∈ l
                     <-> exists dirName text,
                           skillEntry (fs s) dir dirName text
                           /\ Skill.parseSkillMarkdown text
                                (dir +:+ "/" +:+ dirName +:+ "/SKILL.md") = Some k
  end.
Proof.
  intros Hb dir.
  assert (Hrun : getSkills this projectPath s
                 = if existsSync (fs s) dir
                   then match readdirSync (fs s) dir with
                        | Some dirs => (Ok (loadSkills (fs s) dir dirs), s)
                        | None => (Throw IOError, s)
                        end
                   else (Ok [], s)).
  { unfold getSkills. unfold bind at 1. rewrite (getConfig_ok _ _ _ Hb). run.
    change (skillsDir (load (fs s) (resolveBase this projectPath))) with dir.
    destruct (existsSync (fs s) dir); [|done]. by destruct (readdirSync (fs s) dir). }
  rewrite Hrun. clear Hrun.
  assert (Hd : truthy dir = true) by by apply truthy_app.
  unfold existsSync. destruct (fs s !! dir) as [[|data]|] eqn:Hl.
  - rewrite bool_decide_eq_true_2 by eauto.
    destruct (readdir_spec _ _ Hl) as (entries & -> & Hentries).
    eexists. split; [done|]. intros k. rewrite loadSkills_spec; [|done|].
    + unfold skillEntry. split.
      * intros (dirName & text & Hin & Hf & Hk).
        apply Hentries in Hin as (Ht & Ha & Hdir). by exists dirName, text.
      * intros (dirName & text & (Ht & Ha & Hdir & Hf) & Hk).
        exists dirName, text. split; [by apply Hentries | done].
    + intros name n Hin. by apply Hentries in Hin as (Ht & _).
  - rewrite bool_decide_eq_true_2 by eauto. unfold readdirSync. by rewrite Hl.
  - rewrite bool_decide_eq_false_2; [done|]. by intros [? ?].
Qed.

(** X24.  What the three listings return: nothing when the directory
    of the kind does not exist, an error when its path is a file, and
    otherwise exactly the records decoded from the [.md] files directly
    inside it - for skills, from the [SKILL.md] of the directories
    directly inside it - each decoded at the path of its file. *)
Theorem listing (this : Service) (projectPath : option string) (s : Store) :
  truthy (resolveBase this projectPath) = true ->
  let config := createDefaultConfig (resolveBase this projectPath) in
  match fs s !! commandsDir config with
  | None => getCommands this projectPath s = (Ok [], s)
  | Some (File _) => getCommands this projectPath s = (Throw IOError, s)
  | Some Dir =>
      exists l, getCommands this projectPath s = (Ok l, s)
                /\ forall c, c ∈ l
                     <-> exists file text,
                           flatEntry (fs s) (commandsDir config) file text
                           /\ Command.parseCommandMarkdown text
                                (commandsDir config +:+ "/" +:+ file) = Some c
  end
  /\ match fs s !! agentsDir config with
     | None => getAgents this projectPath s = (Ok [], s)
     | Some (File _) => getAgents this projectPath s = (Throw IOError, s)
     | Some Dir =>
         exists l, getAgents this projectPath s = (Ok l, s)
                   /\ forall a, a ∈ l
                        <-> exists file text,
                              flatEntry (fs s) (agentsDir config) file text
                              /\ Agent.parseAgentMarkdown text
                                   (agentsDir config +:+ "/" +:+ file) = Some a
     end
  /\ match fs s !! skillsDir config with
     | None => getSkills this projectPath s = (Ok [], s)
     | Some (File _) => getSkills this projectPath s = (Throw IOError, s)
     | Some Dir =>
         exists l, getSkills this projectPath s = (Ok l, s)
                   /\ forall k, k ∈ l
                        <-> exists dirName text,
                              skillEntry (fs s) (skillsDir config) dirName text
                              /\ Skill.parseSkillMarkdown text
                                   (skillsDir config +:+ "/" +:+ dirName +:+ "/SKILL.md")
                                 = Some k
     end.
Proof.
  intros Hb config. destruct (flat_spec this projectPath s Hb) as [Hc Ha].
  split; [exact Hc|]. split; [exact Ha|]. exact (getSkills_spec this projectPath s Hb).
Qed.

Lemma listing_witness :
  getCommands Samples.svc None Samples.empty_store = (Ok [], Samples.empty_store)
  /\ getAgents Samples.svc None Samples.empty_store = (Ok [], Samples.empty_store)
  /\ getSkills Samples.svc None Samples.empty_store = (Ok [], Samples.empty_store).
Proof. exact (listing Samples.svc None Samples.empty_store eq_refl). Defined.

(** *** Creating, then listing *)




Lemma longer_differs (a b : string) : truthy b = true -> a +:+ b <> a.
Proof.
  intros Hb H. apply (f_equal String.length) in H. rewrite string_length_app in H.
  destruct b; [done|]. simpl in H. lia.
Qed.





(** *** Updating a command *)

Lemma loadFlat_parsed {A} (parse : string -> string -> option A) (fs : Fs.t)
    (dir : string) (entries : list (string * node)) (x : A) :
  x ∈ loadFlat parse fs dir entries -> exists text p, parse text p = Some x.
Proof.
  unfold loadFlat. rewrite list_elem_of_omap. intros ([file n] & _ & Hx).
  destruct (endsWith file ".md"); [|done].
  destruct (readFileSync fs _) as [[text|doc]|]; try done. by eauto.
Qed.

Lemma listed_command_name (this : Service) (projectPath : option string) (s s' : Store)
    (l : list Command.Command) (c : Command.Command) :
  getCommands this projectPath s = (Ok l, s') -> c ∈ l ->
  Command.name (Command.draft c) = fileStem (Command.filePath c).
Proof.
  unfold getCommands, bind.
  destruct (getConfig this Project projectPath s) as [[config|e] s1]; [|done].
  unfold listFlat. run. destruct (existsSync (fs s1) _).
  - destruct (readdirSync (fs s1) _) as [entries|]; [|done].
    intros [= <- _] Hin. apply loadFlat_parsed in Hin as (text & p & Hx).
    unfold Command.parseCommandMarkdown in Hx.
    destruct (frontmatterMatch text) as [[f b]|]; [|done]. by injection Hx as <-.
  - intros [= <- _] Hin. by apply elem_of_nil in Hin.
Qed.

(** X26.  [updateCommand] throws 'Command <name> not found', leaving
    the store as it is, when no listed command carries the name;
    otherwise it writes the encoding of the merged record to the file of
    the first such command and to no other path, and fires one
    notification with the configuration loaded after the write.  The
    file still decodes to a command of the name looked up, at the same
    path, whatever name or path the update carries. *)
Theorem updateCommand_effect (this : Service) (name : string) (updates : CommandUpdates)
    (projectPath : option string) (s : Store) (l : list Command.Command) :
  getCommands this projectPath s = (Ok l, s) ->
  match List.find (fun c => bool_decide (Command.name (Command.draft c) = name)) l with
  | None => updateCommand this name updates projectPath s = (Throw (CommandNotFound name), s)
  | Some existing =>
      let text := Command.commandToMarkdown (Command.draft (applyUpdates existing updates)) in
      exists s' rewritten,
        updateCommand this name updates projectPath s = (Ok tt, s')
        /\ fs s' = <[Command.filePath existing := File (Text text)]> (fs s)
        /\ fired s' = fired s ++ [load (fs s') (resolveBase this projectPath)]
        /\ Command.parseCommandMarkdown text (Command.filePath existing) = Some rewritten
        /\ Command.name (Command.draft rewritten) = name
        /\ Command.filePath rewritten = Command.filePath existing
  end.
Proof.
  intros Hl.
  destruct (List.find _ l) as [existing|] eqn:Hfind;
    unfold updateCommand; unfold bind at 1; rewrite Hl, Hfind; [|done].
  cbv zeta. set (text := Command.commandToMarkdown _).
  destruct (getCommands_pure this projectPath s) as [(l' & Hl' & Hb)|(e & He)];
    [|congruence].
  run. cbn [fs fired]. rewrite (getConfig_ok _ _ _ Hb). cbn [fs fired].
  destruct (command_decodes (Command.draft (applyUpdates existing updates))
              (Command.filePath existing)) as (rewritten & Hdec & Hpath & Hname).
  exists {| fs := writeFileSync (fs s) (Command.filePath existing) (Text text);
            fired := fired s
                     ++ [load (writeFileSync (fs s) (Command.filePath existing) (Text text))
                              (resolveBase this projectPath)] |}, rewritten.
  split; [done|]. split; [done|]. split; [done|]. split; [done|]. split; [|done].
  apply find_some in Hfind as [Hin Hn%bool_decide_eq_true_1].
  rewrite Hname, <- Hn. symmetry. apply (listed_command_name _ _ _ _ _ _ Hl).
  by apply list_elem_of_In.
Qed.

Lemma updateCommand_effect_witness :
  updateCommand Samples.svc "deploy" Examples.retitle None Examples.with_review
  = (Throw (CommandNotFound "deploy"), Examples.with_review)
  /\ exists s' rewritten,
       updateCommand Samples.svc "review" Examples.retitle None Examples.with_review
       = (Ok tt, s')
       /\ Command.name (Command.draft rewritten) = "review"
       /\ Command.filePath rewritten = "/p/.claude/commands/review.md".
Proof.
  assert (Hl : getCommands Samples.svc None Examples.with_review
               = (Ok [Examples.review_listed], Examples.with_review))
    by (vm_compute; reflexivity).
  split.
  - exact (updateCommand_effect Samples.svc "deploy" Examples.retitle None
             Examples.with_review [Examples.review_listed] Hl).
  - destruct (updateCommand_effect Samples.svc "review" Examples.retitle None
                Examples.with_review [Examples.review_listed] Hl)
      as (s' & rewritten & Hrun & _ & _ & _ & Hname & Hpath).
    exists s', rewritten. exact (conj Hrun (conj Hname Hpath)).
Defined.

End ListingFacts.

(** ** Directories and initialization *)

Module TreeFacts.
Import Js Codec ClaudeConfig Fs Service Observe StringFacts StoreFacts SettingsFacts.
Import DecoderFacts ListingFacts.

#[local] Arguments String.append !s1 s2 /.



Lemma ancestors_from_prefix (seen p a : string) :
  a ∈ ancestors_from seen p -> exists r, seen +:+ p = a +:+ r.
Proof.
  revert seen. induction p as [|c p IH]; intros seen; [by rewrite elem_of_nil|].
  cbn [ancestors_from].
  assert (Hrest : a ∈ ancestors_from (seen +:+ String c "") p ->
                  exists r, seen +:+ String c p = a +:+ r).
  { intros H. apply IH in H as [r Hr]. exists r. rewrite <- Hr.
    by rewrite StringFacts.app_assoc. }
  destruct (Ascii.eqb c "/" && truthy seen); [|done].
  rewrite elem_of_cons. intros [->|H]; [by eauto | by apply Hrest].
Qed.





(** *** Initialization *)





















End TreeFacts.

(** ** Created and deleted artifacts *)

Module CreatedFacts.
Import Js Codec ClaudeConfig Fs Service Observe StringFacts StoreFacts SettingsFacts.
Import DecoderFacts ListingFacts TreeFacts.

#[local] Arguments String.append !s1 s2 /.





(** *** Deleting, then listing *)

Lemma flat_delete_listed {A} (parse : string -> string -> option A) (pathOf : A -> string)
    (dir : string) (s : Store) (before : list A) (target : A) (l : list ClaudeConfig) :
  truthy dir = true ->
  (forall t p x, parse t p = Some x -> pathOf x = p) ->
  listFlat parse dir s = (Ok before, s) ->
  target ∈ before ->
  let s' := {| fs := unlinkSync (fs s) (pathOf target); fired := l |} in
  existsSync (fs s) (pathOf target) = true
  /\ exists after,
       listFlat parse dir s' = (Ok after, s')
       /\ forall x, x ∈ after <-> x ∈ before /\ pathOf x <> pathOf target.
Proof.
  intros Hd Hpath Hrun Hin s'.
  pose proof (listFlat_spec parse dir s Hd) as Hbefore.
  destruct (fs s !! dir) as [[|data]|] eqn:Hl.
  - destruct Hbefore as (before' & Hrun1 & Hbefore). rewrite Hrun in Hrun1.
    injection Hrun1 as <-.
    destruct (proj1 (Hbefore target) Hin) as (file & text & (Ht & Ha & He & Hf) & Hx).
    pose proof (Hpath _ _ _ Hx) as Hp.
    split; [unfold existsSync; rewrite Hp, Hf; by apply bool_decide_eq_true_2|].
    assert (Hdir' : fs s' !! dir = Some Dir).
    { unfold s', unlinkSync. cbn [fs]. rewrite lookup_delete_ne; [done|].
      rewrite Hp. by apply longer_differs. }
    pose proof (listFlat_spec parse dir s' Hd) as Hafter. rewrite Hdir' in Hafter.
    destruct Hafter as (after & Hrun' & Hafter). exists after. split; [done|].
    intros x. rewrite Hafter, Hbefore. unfold flatEntry, s', unlinkSync. cbn [fs]. split.
    + intros (file' & text' & (Ht' & Ha' & He' & Hf') & Hx').
      pose proof (Hpath _ _ _ Hx') as Hp'.
      destruct (decide (dir +:+ "/" +:+ file' = pathOf target)) as [Heq|Hne].
      * by rewrite Heq, lookup_delete_eq in Hf'.
      * rewrite lookup_delete_ne in Hf' by done. split; [by exists file', text'|].
        by rewrite Hp'.
    + intros [(file' & text' & (Ht' & Ha' & He' & Hf') & Hx') Hne].
      pose proof (Hpath _ _ _ Hx') as Hp'. exists file', text'. split; [|done].
      repeat split; try done. rewrite lookup_delete_ne; [done|]. by rewrite <- Hp'.
  - by rewrite Hrun in Hbefore.
  - rewrite Hrun in Hbefore. injection Hbefore as ->. by apply elem_of_nil in Hin.
Qed.

Lemma found_listed {A} (p : A -> bool) (l : list A) (x : A) :
  List.find p l = Some x -> x ∈ l /\ p x = true.
Proof. intros [Hin Hp]%find_some. split; [by apply list_elem_of_In | done]. Qed.

(** X28.  [deleteCommand] and [deleteAgent], when a listed record
    carries the name, remove the file of the first such record and
    nothing else; the listing afterwards holds exactly the records
    listed before whose file is another one. *)
Theorem deleted_is_unlisted (this : Service) (name : string)
    (projectPath : option string) (s : Store) :
  (forall before target,
      getCommands this projectPath s = (Ok before, s) ->
      List.find (fun c => bool_decide (Command.name (Command.draft c) = name)) before
      = Some target ->
      exists s' after,
        deleteCommand this name projectPath s = (Ok tt, s')
        /\ fs s' = delete (Command.filePath target) (fs s)
        /\ getCommands this projectPath s' = (Ok after, s')
        /\ forall x, x ∈ after
             <-> x ∈ before /\ Command.filePath x <> Command.filePath target)
  /\ (forall before target,
        getAgents this projectPath s = (Ok before, s) ->
        List.find (fun a => bool_decide (Agent.name (Agent.draft a) = name)) before
        = Some target ->
        exists s' after,
          deleteAgent this name projectPath s = (Ok tt, s')
          /\ fs s' = delete (Agent.filePath target) (fs s)
          /\ getAgents this projectPath s' = (Ok after, s')
          /\ forall x, x ∈ after
               <-> x ∈ before /\ Agent.filePath x <> Agent.filePath target).
Proof.
  split; intros before target Hrun Hfind;
    destruct (found_listed _ _ _ Hfind) as [Hin _].
  - destruct (getCommands_pure this projectPath s) as [(l' & Hl' & Hb)|(e & He)];
      [|congruence].
    assert (Hlist : forall s0, getCommands this projectPath s0
                      = listFlat Command.parseCommandMarkdown
                          (commandsDir (createDefaultConfig (resolveBase this projectPath)))
                          s0)
      by (intros s0; unfold getCommands, bind; by rewrite (getConfig_ok _ _ _ Hb)).
    rewrite Hlist in Hrun.
    destruct (flat_delete_listed Command.parseCommandMarkdown Command.filePath
                (commandsDir (createDefaultConfig (resolveBase this projectPath))) s before
                target
                (fired s ++ [load (unlinkSync (fs s) (Command.filePath target))
                               (resolveBase this projectPath)])
                ltac:(by apply truthy_app)
                ltac:(intros t p x; unfold Command.parseCommandMarkdown;
                      destruct (frontmatterMatch t) as [[f b]|]; [|done];
                      by intros [= <-])
                Hrun Hin) as (Hex & after & Hrun' & Hafter).
    eexists _, after. split; [|split; [|split; [rewrite Hlist; exact Hrun'|exact Hafter]]].
    + unfold deleteCommand. unfold bind at 1. rewrite Hlist, Hrun. run.
      rewrite Hfind, Hex. cbn [fs fired]. by rewrite (getConfig_ok _ _ _ Hb).
    + done.
  - destruct (getAgents_pure this projectPath s) as [(l' & Hl' & Hb)|(e & He)];
      [|congruence].
    assert (Hlist : forall s0, getAgents this projectPath s0
                      = listFlat Agent.parseAgentMarkdown
                          (agentsDir (createDefaultConfig (resolveBase this projectPath)))
                          s0)
      by (intros s0; unfold getAgents, bind; by rewrite (getConfig_ok _ _ _ Hb)).
    rewrite Hlist in Hrun.
    destruct (flat_delete_listed Agent.parseAgentMarkdown Agent.filePath
                (agentsDir (createDefaultConfig (resolveBase this projectPath))) s before
                target
                (fired s ++ [load (unlinkSync (fs s) (Agent.filePath target))
                               (resolveBase this projectPath)])
                ltac:(by apply truthy_app)
                ltac:(intros t p x; unfold Agent.parseAgentMarkdown;
                      destruct (frontmatterMatch t) as [[f b]|]; [|done];
                      by intros [= <-])
                Hrun Hin) as (Hex & after & Hrun' & Hafter).
    eexists _, after. split; [|split; [|split; [rewrite Hlist; exact Hrun'|exact Hafter]]].
    + unfold deleteAgent. unfold bind at 1. rewrite Hlist, Hrun. run.
      rewrite Hfind, Hex. cbn [fs fired]. by rewrite (getConfig_ok _ _ _ Hb).
    + done.
Qed.

Lemma deleted_is_unlisted_witness :
  exists s' after,
    deleteCommand Samples.svc "review" None Examples.with_review = (Ok tt, s')
    /\ getCommands Samples.svc None s' = (Ok after, s')
    /\ Examples.review_listed ∉ after.
Proof.
  assert (Hl : getCommands Samples.svc None Examples.with_review
               = (Ok [Examples.review_listed], Examples.with_review))
    by (vm_compute; reflexivity).
  destruct (deleted_is_unlisted Samples.svc "review" None Examples.with_review) as [Hc _].
  destruct (Hc [Examples.review_listed] Examples.review_listed Hl eq_refl)
    as (s' & after & Hrun & _ & Hget & Hafter).
  exists s', after. split; [exact Hrun|]. split; [exact Hget|].
  intros Hin. apply Hafter in Hin as [_ Hne]. exact (Hne eq_refl).
Defined.

End CreatedFacts.

(** ** Applying suggestions *)

Module SetupFacts.
Import Js Codec ClaudeConfig Fs Service Observe Setup.
Import StringFacts StoreFacts SettingsFacts HookFacts ListingFacts TreeFacts.

#[local] Arguments String.append !s1 s2 /.








End SetupFacts.

(** ** The configuration file of the launcher *)

Module LegacyFacts.
Import Js Codec Legacy StringFacts CodecFacts DecoderFacts.

#[local] Arguments String.append !s1 s2 /.

Lemma split_closed_lines (lines : list string) :
  lines <> [] -> Forall (fun l => all (not_char LF) l = true) lines ->
  split LF (join nl lines +:+ nl) = lines ++ [""].
Proof.
  induction lines as [|l ls IH]; [done|]. intros _ [Hl Hls]%Forall_cons.
  destruct ls as [|l2 ls].
  - cbn [join]. change (l +:+ nl) with (l +:+ String LF "").
    by rewrite split_app, (split_plain _ _ Hl).
  - rewrite join_cons, !StringFacts.app_assoc.
    change (nl +:+ ?x) with (String LF x).
    rewrite split_app, (split_plain _ _ Hl), IH by done. done.
Qed.

Lemma trimStart_empty (s : string) : trimStart s = "" -> all is_ws s = true.
Proof.
  induction s as [|c s IH]; [done|]. cbn [trimStart all].
  destruct (is_ws c); [by intros ?%IH | done].
Qed.

Lemma last_char_all (p : ascii -> bool) (s : string) (c : ascii) :
  last_char s = Some c -> all p s = true -> p c = true.
Proof.
  induction s as [|x s IH]; [done|]. cbn [all]. intros Hl [Hx Hs]%andb_split.
  destruct s as [|y s]; [by injection Hl as <- | by apply IH].
Qed.

Lemma last_char_some (c : ascii) (s : string) : is_Some (last_char (String c s)).
Proof.
  revert c. induction s as [|x s IH]; intros c; [by eexists|]. apply (IH x).
Qed.

Lemma trim_ws_char (c : ascii) : is_ws c = true -> trim (String c "") = "".
Proof. intros Hc. unfold trim. cbn [trimStart]. by rewrite Hc. Qed.

Lemma addDir_line (dir : string) :
  all (fun c => negb (is_line_terminator c)) dir = true ->
  trim <$> addDirMatch ("add-dir: " +:+ dir) = Some (trim dir).
Proof.
  intros Hd. unfold addDirMatch.
  change ("add-dir: " +:+ dir) with ("add-dir:" +:+ String " " dir).
  rewrite strip_prefix_app.
  change (trimStart (String " " dir)) with (trimStart dir).
  destruct (trimStart dir) as [|c t] eqn:Ht.
  - destruct (last_char_some " " dir) as [c Hc]. rewrite Hc.
    assert (Hlt : is_line_terminator c = false).
    { apply negb_true_iff.
      by apply (last_char_all (fun c => negb (is_line_terminator c)) _ _ Hc). }
    assert (Hws : is_ws c = true).
    { apply (last_char_all is_ws _ _ Hc). cbn [all].
      by rewrite (trimStart_empty _ Ht). }
    rewrite Hlt. cbn [fmap option_fmap option_map]. rewrite (trim_ws_char _ Hws).
    unfold trim. by rewrite Ht.
  - pose proof (all_trimStart _ _ Hd) as Hall. rewrite Ht in Hall. rewrite Hall.
    cbn [fmap option_fmap option_map]. f_equal. rewrite <- Ht. unfold trim.
    by rewrite (trimStart_id (trimStart dir)) by apply trimStart_starts.
Qed.

(** X30.  The reference directories survive the configuration file:
    for directories without line terminators, reading the content
    written for them gives each directory trimmed, in order; writing
    and reading what was read gives the same list. *)
Theorem legacy_round_trip (directories : list string) :
  Forall (fun dir => all (fun c => negb (is_line_terminator c)) dir = true) directories ->
  parseConfig (configContent directories) = List.map trim directories
  /\ parseConfig (configContent (parseConfig (configContent directories)))
     = parseConfig (configContent directories).
Proof.
  assert (Hparse : forall dirs,
             Forall (fun dir => all (fun c => negb (is_line_terminator c)) dir = true) dirs ->
             parseConfig (configContent dirs) = List.map trim dirs).
  { intros dirs Hd. unfold parseConfig, configContent.
    rewrite split_closed_lines.
    - rewrite !omap_app. change (omap _ header) with (@nil string).
      change (omap _ [""]) with (@nil string). rewrite List.app_nil_r. cbn [app].
      induction Hd as [|d ds Hdir _ IH]; [done|].
      cbn [List.map omap list_omap]. by rewrite (addDir_line _ Hdir), IH.
    - done.
    - apply Forall_app. split.
      + unfold header. repeat (apply Forall_cons_2; [done|]). by apply Forall_nil.
      + apply Forall_forall. intros l (d & -> & Hin)%list_elem_of_fmap.
        rewrite Forall_forall in Hd. specialize (Hd _ Hin).
        rewrite StringFacts.all_app. apply andb_true_intro. split; [done|].
        apply (all_weaken (fun c => negb (is_line_terminator c))); [|done].
        intros c. unfold is_line_terminator, not_char.
        by destruct (Ascii.eqb c LF). }
  intros Hd. split; [by apply Hparse|]. rewrite (Hparse _ Hd).
  rewrite Hparse.
  - rewrite <- list_fmap_compose. apply list_fmap_ext. intros _ d _. cbn.
    apply trimmed_trim, trimmed_trim_of.
  - apply Forall_forall. intros t (d & -> & Hin)%list_elem_of_fmap.
    rewrite Forall_forall in Hd. by apply all_trim, Hd.
Qed.

Lemma legacy_round_trip_witness :
  parseConfig (configContent ["~/notes"; " ../shared "])
  = List.map trim ["~/notes"; " ../shared "].
Proof.
  apply (legacy_round_trip ["~/notes"; " ../shared "]).
  repeat (apply Forall_cons_2; [reflexivity|]). apply Forall_nil_2.
Defined.

End LegacyFacts.
